(** * schedule-backend/server.js: the four schedule routes over one SQL table

    The development follows the source file from the bottom up:

    - [Module JS]: the JavaScript values a parsed JSON body can hold and the
      language operations the handlers apply to them ([||], [===], [isNaN],
      [>=], string [+]);
    - [handler]: a route handler as a program whose only effects are console
      output, one [pool.execute] call and the response;
    - the four handlers, one definition per [app.<verb>(...)] of the source;
    - [Module Store]: the table the statements run on, with its schema taken
      as a parameter;
    - the theorems. *)

From Stdlib Require Import ZArith List String Ascii Bool Lia.
From Stdlib Require Import Floats.SpecFloat.
Import ListNotations.

Local Open Scope string_scope.
Local Open Scope Z_scope.

#[local] Set Warnings "-register-all".

(** ** JavaScript values and coercions *)

Module JS.

(** A Number is an IEEE-754 binary64 value. *)
Definition number : Type := spec_float.

Definition prec : Z := 53.
Definition emax : Z := 1024.

Definition NaN : number := S754_nan.
Definition Infinity : number := S754_infinity false.
Definition pos_zero : number := S754_zero false.

(** The Number nearest to an integer (round to nearest, ties to even). *)
Definition of_Z (z : Z) : number := binary_normalize prec emax z 0 false.

(** What [JSON.parse] can produce, plus [undefined] for an absent property.
    Strings hold the UTF-8 bytes of the text. An object keeps its properties
    in order; a property is looked up by its first occurrence. *)
Inductive value : Type :=
| Undefined
| Null
| Bool (b : bool)
| Number (x : number)
| String (s : string)
| Array (elements : list value)
| Object (properties : list (string * value)).

(** [o.name] on a parsed body: own properties only matter, none of the names
    the handlers read exists on a prototype. *)
Fixpoint lookup (name : string) (props : list (string * value)) : value :=
  match props with
  | [] => Undefined
  | (k, v) :: rest => if String.eqb k name then v else lookup name rest
  end.

Definition get (o : value) (name : string) : value :=
  match o with
  | Object props => lookup name props
  | _ => Undefined
  end.

Fixpoint has_own (name : string) (props : list (string * value)) : bool :=
  match props with
  | [] => false
  | (k, _) :: rest => String.eqb k name || has_own name rest
  end.

(** ToBoolean *)
Definition ToBoolean (v : value) : bool :=
  match v with
  | Undefined | Null => false
  | Bool b => b
  | Number (S754_zero _) | Number S754_nan => false
  | Number _ => true
  | String s => negb (String.eqb s "")
  | Array _ | Object _ => true
  end.

(** [a || b] *)
Definition or (a b : value) : value := if ToBoolean a then a else b.

(** [a === b] for the right-hand sides the handlers use. *)
Definition is_undefined (v : value) : bool :=
  match v with Undefined => true | _ => false end.

Definition is_null (v : value) : bool :=
  match v with Null => true | _ => false end.

(** [v === 0]: a Number equal to zero of either sign. *)
Definition strict_eq_zero (v : value) : bool :=
  match v with
  | Number x => SFeqb x pos_zero
  | _ => false
  end.

(** *** StringToNumber *)

Definition byte (c : ascii) : Z := Z.of_N (N_of_ascii c).

Fixpoint bytes (s : string) : list Z :=
  match s with
  | EmptyString => []
  | String.String c r => byte c :: bytes r
  end.

(** One StrWhiteSpaceChar at the head of a UTF-8 text, removed: TAB, LF, VT,
    FF, CR, SP, U+00A0, U+1680, U+2000..U+200A, U+2028, U+2029, U+202F,
    U+205F, U+3000, U+FEFF. *)
Definition skip_ws_char (l : list Z) : option (list Z) :=
  match l with
  | 9 :: r | 10 :: r | 11 :: r | 12 :: r | 13 :: r | 32 :: r => Some r
  | 194 :: 160 :: r => Some r
  | 225 :: 154 :: 128 :: r => Some r
  | 226 :: 128 :: c :: r =>
      if ((128 <=? c) && (c <=? 138)) || (c =? 168) || (c =? 169) || (c =? 175)
      then Some r else None
  | 226 :: 129 :: 159 :: r => Some r
  | 227 :: 128 :: 128 :: r => Some r
  | 239 :: 187 :: 191 :: r => Some r
  | _ => None
  end.

Fixpoint skip_ws_fuel (fuel : nat) (l : list Z) : list Z :=
  match fuel with
  | O => l
  | S n => match skip_ws_char l with
           | Some r => skip_ws_fuel n r
           | None => l
           end
  end.

(** Every white space character takes at least one byte, so the length of the
    text is fuel enough. *)
Definition skip_ws (l : list Z) : list Z := skip_ws_fuel (List.length l) l.

Definition digit_of (base c : Z) : option Z :=
  let d :=
    if (48 <=? c) && (c <=? 57) then c - 48
    else if (97 <=? c) && (c <=? 102) then c - 87
    else if (65 <=? c) && (c <=? 70) then c - 55
    else 99 in
  if d <? base then Some d else None.

(** The longest run of digits at the head: their value continuing [acc], how
    many there are, and the rest of the text. *)
Fixpoint digits (base : Z) (acc : Z) (count : Z) (l : list Z) : Z * Z * list Z :=
  match l with
  | [] => (acc, count, [])
  | c :: r => match digit_of base c with
              | Some d => digits base (base * acc + d) (count + 1) r
              | None => (acc, count, l)
              end
  end.

(** The Number nearest to the rational [p / q] with [0 < q], of sign
    [neg]: the quotient is taken with more bits than the format keeps, the
    remainder gives the position of the exact value between two quotients. *)
Definition round_ratio (neg : bool) (p q : Z) : number :=
  if p =? 0 then S754_zero neg
  else
    let k := Z.max 0 (64 + Z.log2 q - Z.log2 p) in
    let n := Z.shiftl p k in
    let m := n / q in
    let r := n mod q in
    let loc := if r =? 0 then loc_Exact else loc_Inexact (Z.compare (2 * r) q) in
    binary_round_aux prec emax neg m (- k) loc.

(** The Number of [m * 10 ^ e]. *)
Definition round_decimal (neg : bool) (m e : Z) : number :=
  if 0 <=? e then round_ratio neg (m * 10 ^ e) 1
  else round_ratio neg m (10 ^ (- e)).

(** ExponentPart, optional: [e] or [E], an optional sign, digits. [None] when
    an exponent indicator is there without its digits. *)
Definition exponent_part (l : list Z) : option (Z * list Z) :=
  match l with
  | 101 :: r | 69 :: r =>
      let '(neg, r1) :=
        match r with
        | 43 :: r' => (false, r')
        | 45 :: r' => (true, r')
        | _ => (false, r)
        end in
      let '(e, n, r2) := digits 10 0 0 r1 in
      if n =? 0 then None else Some (if neg then - e else e, r2)
  | _ => Some (0, l)
  end.

Definition Infinity_text : list Z := bytes "Infinity".

Fixpoint strip_prefix (p l : list Z) : option (list Z) :=
  match p, l with
  | [], _ => Some l
  | a :: p', b :: l' => if a =? b then strip_prefix p' l' else None
  | _ :: _, [] => None
  end.

(** StrUnsignedDecimalLiteral with the sign already read. *)
Definition unsigned_decimal (neg : bool) (l : list Z) : option (number * list Z) :=
  match strip_prefix Infinity_text l with
  | Some r => Some (S754_infinity neg, r)
  | None =>
      let '(ip, ni, r1) := digits 10 0 0 l in
      let '(m, nf, r2) :=
        match r1 with
        | 46 :: r' => let '(m, nf, r2) := digits 10 ip 0 r' in (m, nf, r2)
        | _ => (ip, 0, r1)
        end in
      if (ni =? 0) && (nf =? 0) then None
      else match exponent_part r2 with
           | Some (e, r3) => Some (round_decimal neg m (e - nf), r3)
           | None => None
           end
  end.

(** NonDecimalIntegerLiteral: [0x], [0o], [0b] (either case) and digits. *)
Definition non_decimal (l : list Z) : option (number * list Z) :=
  match l with
  | 48 :: c :: r =>
      let base :=
        if (c =? 120) || (c =? 88) then 16
        else if (c =? 111) || (c =? 79) then 8
        else if (c =? 98) || (c =? 66) then 2
        else 0 in
      if base =? 0 then None
      else let '(m, n, r') := digits base 0 0 r in
           if n =? 0 then None else Some (round_ratio false m 1, r')
  | _ => None
  end.

Definition numeric_literal (l : list Z) : option (number * list Z) :=
  match non_decimal l with
  | Some res => Some res
  | None =>
      match l with
      | 43 :: r => unsigned_decimal false r
      | 45 :: r => unsigned_decimal true r
      | _ => unsigned_decimal false l
      end
  end.

(** StringToNumber: white space, then nothing (the value is +0) or one
    StrNumericLiteral, then white space up to the end; NaN otherwise. *)
Definition StringToNumber (s : string) : number :=
  match skip_ws (bytes s) with
  | [] => pos_zero
  | l => match numeric_literal l with
         | Some (x, r) => match skip_ws r with
                          | [] => x
                          | _ => NaN
                          end
         | None => NaN
         end
  end.

(** *** ToNumber, isNaN and >= *)

(** An exception value: only its [message] is ever read. *)
Record error : Type := { message : string }.

(** The completion of an operation that may throw. *)
Inductive completion (A : Type) : Type :=
| Normal (a : A)
| Throws (e : error).
Arguments Normal {A} a.
Arguments Throws {A} e.

Definition bind {A B : Type} (c : completion A) (f : A -> completion B) : completion B :=
  match c with
  | Normal a => f a
  | Throws e => Throws e
  end.

Definition TypeError_primitive : error :=
  {| message := "Cannot convert object to primitive value" |}.

(** ToString of a parsed value throws exactly when OrdinaryToPrimitive finds
    no callable conversion: a parsed object whose own [toString] property
    (never a function) hides [Object.prototype.toString], or an array whose
    [join] meets such an element. *)
Fixpoint unprintable (v : value) : bool :=
  match v with
  | Object props => has_own "toString" props
  | Array l => existsb unprintable l
  | _ => false
  end.

(** ToNumber(ToString(x)) for a Number [x]: the text of a Number reads back
    as the same Number, except that the text of -0 is ["0"]. *)
Definition reread (x : number) : number :=
  match x with
  | S754_zero _ => pos_zero
  | _ => x
  end.

(** ToNumber. An object goes through ToPrimitive with hint number:
    [valueOf] gives the object back, so [toString] decides. A plain object
    prints as ["[object Object]"]; an array prints its elements joined by
    commas, [null] and [undefined] elements as the empty text, so only an
    array of at most one element can print a numeric literal.

    Printing an array walks the arrays it holds, one call inside the other,
    and an engine ends that walk with a RangeError once its call stack is
    full. How deep that is belongs to the engine, not to the program: this
    definition is the conversion of the values the engine can walk. *)
Fixpoint ToNumber (v : value) : completion number :=
  match v with
  | Undefined => Normal NaN
  | Null => Normal pos_zero
  | Bool b => Normal (if b then of_Z 1 else pos_zero)
  | Number x => Normal x
  | String s => Normal (StringToNumber s)
  | Object props =>
      if has_own "toString" props then Throws TypeError_primitive
      else Normal (StringToNumber "[object Object]")
  | Array l =>
      if existsb unprintable l then Throws TypeError_primitive
      else match l with
           | [] => Normal (StringToNumber "")
           | [x] =>
               match x with
               | Undefined | Null => Normal (StringToNumber "")
               | Bool b => Normal (StringToNumber (if b then "true" else "false"))
               | Number n => Normal (reread n)
               | String s => Normal (StringToNumber s)
               | Array _ => ToNumber x
               | Object _ => Normal (StringToNumber "[object Object]")
               end
           | _ :: _ :: _ => Normal NaN
           end
  end.

Definition is_nan (x : number) : bool :=
  match x with S754_nan => true | _ => false end.

(** [isNaN(v)] *)
Definition isNaN (v : value) : completion bool :=
  bind (ToNumber v) (fun x => Normal (is_nan x)).

(** [v >= y] for a Number [y]: false when [v] is less than [y] or when the
    two do not compare (NaN). *)
Definition ge (v : value) (y : number) : completion bool :=
  bind (ToNumber v) (fun x =>
    Normal match SFcompare x y with
           | Some Lt | None => false
           | Some Eq | Some Gt => true
           end).

(** ['text' + s] *)
Definition concat (a b : string) : string := a ++ b.

End JS.

(** ** Requests, responses and handlers *)

(** [req.params.id] and [req.body]. The body is what [express.json()]
    parsed, an object or an array ([{}] for a request without one), so
    reading a property of it does not throw. *)
Record request : Type := { params_id : string; body : JS.value }.

(** [res.status(code).json(body)]; [res.json(body)] has status 200. *)
Record response : Type := { status : Z; json : JS.value }.

(** The four statement texts of the source. *)
Inductive statement : Type :=
| SELECT_ALL   (* SELECT * FROM SMP_USER_MASTER_SCHEDULES *)
| INSERT_ROW   (* INSERT INTO SMP_USER_MASTER_SCHEDULES (SCHEDULER_TYPE,
                  SCHEDULER_DETAILS, NUMBER_OF_DAYS, STATUS, VENDOR_ID,
                  INSERT_ID) VALUES (?, ?, ?, ?, ?, ?) *)
| UPDATE_DAYS  (* UPDATE SMP_USER_MASTER_SCHEDULES SET NUMBER_OF_DAYS = ?
                  WHERE USER_SCHD_ID = ? *)
| DELETE_ROW   (* DELETE FROM SMP_USER_MASTER_SCHEDULES
                  WHERE USER_SCHD_ID = ? *).

(** The part of the driver's result header the handlers read. *)
Record ResultSetHeader : Type := { affectedRows : JS.number; insertId : JS.number }.

(** The first component of what [pool.execute] resolves to: the rows of a
    SELECT, the header of any other statement. *)
Inductive query_result : Type :=
| RowData (rows : list JS.value)
| Header (h : ResultSetHeader).

Definition result_value (r : query_result) : JS.value :=
  match r with
  | RowData rows => JS.Array rows
  | Header h => JS.Object [("affectedRows", JS.Number (affectedRows h));
                           ("insertId", JS.Number (insertId h))]
  end.

(** How the promise of [pool.execute] settles. *)
Inductive settled : Type :=
| Fulfilled (result : query_result)
| Rejected (err : JS.error).

Inductive stream : Type := log | error.

(** A handler: console output, one awaited statement, the response; or an
    exception that leaves the handler uncaught. *)
Inductive handler : Type :=
| Respond (res : response)
| Uncaught (err : JS.error)
| Console (to : stream) (args : list JS.value) (next : handler)
| Execute (sql : statement) (values : list JS.value) (next : settled -> handler).

Definition error_body (text : JS.value) : JS.value := JS.Object [("error", text)].
Definition message_body (text : string) : JS.value :=
  JS.Object [("message", JS.String text)].

(** [app.get('/api/schedules', ...)] *)
Definition get_schedules (req : request) : handler :=
  Execute SELECT_ALL [] (fun outcome =>
    match outcome with
    | Fulfilled rows =>
        Respond {| status := 200; json := result_value rows |}
    | Rejected err =>
        Console error [JS.String "Error fetching schedules:"; JS.String (JS.message err)]
          (Respond {| status := 500;
                      json := error_body (JS.String "Failed to fetch schedules") |})
    end).

(** [app.post('/api/schedules', ...)] *)
Definition post_schedule (req : request) : handler :=
  let SCHEDULER_TYPE := JS.get (body req) "SCHEDULER_TYPE" in
  let SCHEDULER_DETAILS := JS.get (body req) "SCHEDULER_DETAILS" in
  let NUMBER_OF_DAYS := JS.get (body req) "NUMBER_OF_DAYS" in
  let STATUS := JS.get (body req) "STATUS" in
  let VENDOR_ID := JS.get (body req) "VENDOR_ID" in
  Console log
    [JS.String "Received data from frontend for insert:";
     JS.Object [("SCHEDULER_TYPE", SCHEDULER_TYPE);
                ("SCHEDULER_DETAILS", SCHEDULER_DETAILS);
                ("NUMBER_OF_DAYS", NUMBER_OF_DAYS);
                ("STATUS", STATUS);
                ("VENDOR_ID", VENDOR_ID)]]
    (Execute INSERT_ROW
       [SCHEDULER_TYPE; SCHEDULER_DETAILS; JS.or NUMBER_OF_DAYS JS.Null;
        JS.or STATUS JS.Null; VENDOR_ID; JS.Number (JS.of_Z 1)]
       (fun outcome =>
          match outcome with
          | Fulfilled result =>
              Respond {| status := 201;
                         json := JS.Object
                           [("message", JS.String "Schedule added successfully!");
                            ("id", JS.get (result_value result) "insertId")] |}
          | Rejected err =>
              Console error [JS.String "Error adding schedule:"; JS.String (JS.message err)]
                (Respond {| status := 500;
                            json := error_body (JS.String
                              (JS.concat "Error adding schedule: " (JS.message err))) |})
          end)).

(** The validation of [app.put]: [NUMBER_OF_DAYS === undefined ||
    NUMBER_OF_DAYS === null || isNaN(NUMBER_OF_DAYS) || NUMBER_OF_DAYS >= 7],
    evaluated left to right and stopping at the first true operand. *)
Definition invalid_days (NUMBER_OF_DAYS : JS.value) : JS.completion bool :=
  if JS.is_undefined NUMBER_OF_DAYS then JS.Normal true
  else if JS.is_null NUMBER_OF_DAYS then JS.Normal true
  else JS.bind (JS.isNaN NUMBER_OF_DAYS) (fun nan =>
         if nan then JS.Normal true else JS.ge NUMBER_OF_DAYS (JS.of_Z 7)).

(** [app.put('/api/schedules/:id', ...)]. The validation stands before the
    [try]: an exception it throws is not caught by the handler. *)
Definition put_schedule (req : request) : handler :=
  let id := params_id req in
  let NUMBER_OF_DAYS := JS.get (body req) "NUMBER_OF_DAYS" in
  match invalid_days NUMBER_OF_DAYS with
  | JS.Throws err => Uncaught err
  | JS.Normal true =>
      Respond {| status := 400;
                 json := error_body (JS.String
                   "Number of Days must be a valid number and less than 7.") |}
  | JS.Normal false =>
      Console log
        [JS.String (JS.concat "Received data for update (ID: " (JS.concat id "):"));
         JS.Object [("NUMBER_OF_DAYS", NUMBER_OF_DAYS)]]
        (Execute UPDATE_DAYS [NUMBER_OF_DAYS; JS.String id] (fun outcome =>
           match outcome with
           | Fulfilled result =>
               if JS.strict_eq_zero (JS.get (result_value result) "affectedRows")
               then Respond {| status := 404;
                               json := error_body (JS.String "Schedule not found") |}
               else Respond {| status := 200;
                               json := message_body "Schedule updated successfully!" |}
           | Rejected err =>
               Console error [JS.String "Error updating schedule:"; JS.String (JS.message err)]
                 (Respond {| status := 500;
                             json := error_body
                               (JS.or (JS.String (JS.concat "Error updating schedule: "
                                                            (JS.message err)))
                                      (JS.String "Unknown database error")) |})
           end))
  end.

(** [app.delete('/api/schedules/:id', ...)] *)
Definition delete_schedule (req : request) : handler :=
  let id := params_id req in
  Execute DELETE_ROW [JS.String id] (fun outcome =>
    match outcome with
    | Fulfilled result =>
        if JS.strict_eq_zero (JS.get (result_value result) "affectedRows")
        then Respond {| status := 404;
                        json := error_body (JS.String "Schedule not found") |}
        else Respond {| status := 200;
                        json := message_body "Schedule deleted successfully!" |}
    | Rejected err =>
        Console error [JS.String "Error deleting schedule:"; JS.String (JS.message err)]
          (Respond {| status := 500;
                      json := error_body (JS.String
                        (JS.concat "Error deleting schedule: " (JS.message err))) |})
    end).

(** ** Running a handler against a backend *)

(** How a request ends. *)
Inductive outcome : Type :=
| Responded (res : response)
| Threw (err : JS.error).

Record run_result (db : Type) : Type :=
  { ended : outcome;
    issued : list (statement * list JS.value);
    final : db }.
Arguments ended {db} r.
Arguments issued {db} r.
Arguments final {db} r.

Section Run.
Context {db : Type}.
(** What [pool.execute(sql, values)] does to the backend and how its
    promise settles. *)
Variable execute : statement -> list JS.value -> db -> settled * db.

Fixpoint run (h : handler) (d : db) : run_result db :=
  match h with
  | Respond res => {| ended := Responded res; issued := []; final := d |}
  | Uncaught err => {| ended := Threw err; issued := []; final := d |}
  | Console _ _ next => run next d
  | Execute sql values next =>
      let '(s, d') := execute sql values d in
      let r := run (next s) d' in
      {| ended := ended r; issued := (sql, values) :: issued r; final := final r |}
  end.
End Run.

(** ** The table behind [pool.execute]

    The database and the driver are not part of the sources. The handlers
    meet them through [pool.execute] alone, with four fixed statements, so
    the model is the effect of each of the four on one table: SELECT gives
    the rows in storage order, INSERT appends a row under the next key of an
    auto-increment counter, UPDATE and DELETE act on the rows whose key the
    bound identifier denotes. The header of an UPDATE counts the rows its
    WHERE clause found (the driver asks the server for found rows, not
    changed rows). The driver itself refuses an [undefined] bound value. *)

Module Store.

(** The columns the INSERT of the source names, in its order. The key
    column USER_SCHD_ID is assigned by the store. *)
Inductive column : Type :=
| SCHEDULER_TYPE | SCHEDULER_DETAILS | NUMBER_OF_DAYS | STATUS | VENDOR_ID | INSERT_ID.

Definition column_name (c : column) : string :=
  match c with
  | SCHEDULER_TYPE => "SCHEDULER_TYPE"
  | SCHEDULER_DETAILS => "SCHEDULER_DETAILS"
  | NUMBER_OF_DAYS => "NUMBER_OF_DAYS"
  | STATUS => "STATUS"
  | VENDOR_ID => "VENDOR_ID"
  | INSERT_ID => "INSERT_ID"
  end.

(** The declaration of the table is not part of the sources, so what it
    decides is a parameter: which columns take NULL, what a column keeps of a
    bound value that is not NULL (or the error it raises), and which key a
    value compared with USER_SCHD_ID denotes, if any. *)
Record schema : Type :=
  { nullable : column -> bool;
    convert : column -> JS.value -> JS.error + JS.value;
    key_of : JS.value -> option Z }.

Record row : Type :=
  { USER_SCHD_ID : Z;
    scheduler_type : JS.value;
    scheduler_details : JS.value;
    number_of_days : JS.value;
    row_status : JS.value;
    vendor_id : JS.value;
    insert_id : JS.value }.

(** The rows in storage order, and the key the next inserted row gets. *)
Record table : Type := { rows : list row; auto_increment : Z }.

Definition empty : table := {| rows := []; auto_increment := 1 |}.

(** A row as the driver hands it to the handler. *)
Definition row_object (r : row) : JS.value :=
  JS.Object [("USER_SCHD_ID", JS.Number (JS.of_Z (USER_SCHD_ID r)));
             ("SCHEDULER_TYPE", scheduler_type r);
             ("SCHEDULER_DETAILS", scheduler_details r);
             ("NUMBER_OF_DAYS", number_of_days r);
             ("STATUS", row_status r);
             ("VENDOR_ID", vendor_id r);
             ("INSERT_ID", insert_id r)].

Definition null_error (c : column) : JS.error :=
  {| JS.message := "Column '" ++ column_name c ++ "' cannot be null" |}.

(** What column [c] keeps of the bound value [v]. *)
Definition store_cell (sch : schema) (c : column) (v : JS.value) : JS.error + JS.value :=
  match v with
  | JS.Null => if nullable sch c then inr JS.Null else inl (null_error c)
  | _ => convert sch c v
  end.

Definition and_then {A B : Type} (x : JS.error + A) (f : A -> JS.error + B) : JS.error + B :=
  match x with
  | inl e => inl e
  | inr a => f a
  end.

Local Notation "x <- c ;; k" := (and_then c (fun x => k))
  (at level 61, c at next level, right associativity).

Definition arity_error : JS.error :=
  {| JS.message := "Incorrect arguments to mysqld_stmt_execute" |}.

(** The row an INSERT with these bound values makes under key [id]. *)
Definition new_row (sch : schema) (id : Z) (values : list JS.value) : JS.error + row :=
  match values with
  | [v1; v2; v3; v4; v5; v6] =>
      c1 <- store_cell sch SCHEDULER_TYPE v1 ;;
      c2 <- store_cell sch SCHEDULER_DETAILS v2 ;;
      c3 <- store_cell sch NUMBER_OF_DAYS v3 ;;
      c4 <- store_cell sch STATUS v4 ;;
      c5 <- store_cell sch VENDOR_ID v5 ;;
      c6 <- store_cell sch INSERT_ID v6 ;;
      inr {| USER_SCHD_ID := id;
             scheduler_type := c1; scheduler_details := c2; number_of_days := c3;
             row_status := c4; vendor_id := c5; insert_id := c6 |}
  | _ => inl arity_error
  end.

(** [WHERE USER_SCHD_ID = ?] with [k] bound. *)
Definition matches (sch : schema) (k : JS.value) (r : row) : bool :=
  match key_of sch k with
  | Some i => USER_SCHD_ID r =? i
  | None => false
  end.

Definition set_days (c : JS.value) (r : row) : row :=
  {| USER_SCHD_ID := USER_SCHD_ID r;
     scheduler_type := scheduler_type r;
     scheduler_details := scheduler_details r;
     number_of_days := c;
     row_status := row_status r;
     vendor_id := vendor_id r;
     insert_id := insert_id r |}.

Definition header (affected : nat) (id : Z) : settled :=
  Fulfilled (Header {| affectedRows := JS.of_Z (Z.of_nat affected);
                       insertId := JS.of_Z id |}).

(** One statement on the table. The affected rows of an UPDATE are the rows
    its WHERE clause finds; a value is converted only when a row takes it. *)
Definition statement_on (sch : schema) (sql : statement) (values : list JS.value)
    (t : table) : settled * table :=
  match sql, values with
  | SELECT_ALL, [] => (Fulfilled (RowData (map row_object (rows t))), t)
  | INSERT_ROW, _ =>
      match new_row sch (auto_increment t) values with
      | inl err => (Rejected err, t)
      | inr r => (header 1 (auto_increment t),
                  {| rows := rows t ++ [r]; auto_increment := auto_increment t + 1 |})
      end
  | UPDATE_DAYS, [v; k] =>
      match filter (matches sch k) (rows t) with
      | [] => (header 0 0, t)
      | found =>
          match store_cell sch NUMBER_OF_DAYS v with
          | inl err => (Rejected err, t)
          | inr c =>
              (header (List.length found) 0,
               {| rows := map (fun r => if matches sch k r then set_days c r else r) (rows t);
                  auto_increment := auto_increment t |})
          end
      end
  | DELETE_ROW, [k] =>
      (header (List.length (filter (matches sch k) (rows t))) 0,
       {| rows := filter (fun r => negb (matches sch k r)) (rows t);
          auto_increment := auto_increment t |})
  | _, _ => (Rejected arity_error, t)
  end.

Definition bind_error : JS.error :=
  {| JS.message :=
       "Bind parameters must not contain undefined. To pass SQL NULL specify JS null" |}.

(** [pool.execute(sql, values)]: the driver refuses an [undefined] bound
    value before anything is sent; otherwise the statement runs. *)
Definition pool_execute (sch : schema) (sql : statement) (values : list JS.value)
    (t : table) : settled * table :=
  if existsb JS.is_undefined values then (Rejected bind_error, t)
  else statement_on sch sql values t.

(** Every key in the table was handed out before: it is below the counter. *)
Definition keys_below (t : table) : Prop :=
  Forall (fun r => USER_SCHD_ID r < auto_increment t) (rows t).

(** Modelled from the spec: the table declaration, which is not in the
    sources. Section 3 of the specification makes the status optional and the
    vendor identifier required, section 4.2 makes the number of days optional
    on input; the type and the details are taken as required. A column keeps
    a bound value as it is, and a key parameter denotes a key when it is a
    non-empty text of decimal digits. *)
Definition plain_schema : schema :=
  {| nullable := fun c =>
       match c with
       | NUMBER_OF_DAYS | STATUS => true
       | _ => false
       end;
     convert := fun _ v => inr v;
     key_of := fun k =>
       match k with
       | JS.String s =>
           match JS.digits 10 0 0 (JS.bytes s) with
           | (n, count, []) => if 0 <? count then Some n else None
           | _ => None
           end
       | _ => None
       end |}.

End Store.

(** ** The server: one request after another *)

Inductive call : Type :=
| GET
| POST (body : JS.value)
| PUT (id : string) (body : JS.value)
| DELETE (id : string).

Definition route (c : call) : handler :=
  match c with
  | GET => get_schedules {| params_id := ""; body := JS.Object [] |}
  | POST b => post_schedule {| params_id := ""; body := b |}
  | PUT id b => put_schedule {| params_id := id; body := b |}
  | DELETE id => delete_schedule {| params_id := id; body := JS.Object [] |}
  end.

Definition serve (sch : Store.schema) (c : call) (t : Store.table) : run_result Store.table :=
  run (Store.pool_execute sch) (route c) t.

(** The table after a sequence of requests. *)
Fixpoint serve_all (sch : Store.schema) (cs : list call) (t : Store.table) : Store.table :=
  match cs with
  | [] => t
  | c :: rest => serve_all sch rest (final (serve sch c t))
  end.

(** ** The listing a history of creates and deletes should give *)

Definition create_or_delete (c : call) : Prop :=
  match c with
  | POST _ | DELETE _ => True
  | GET | PUT _ _ => False
  end.

(** The record a create request makes when the store hands out the key
    [next]: the one row of a table that was empty before the request, when
    the request is answered with 201. *)
Definition created (sch : Store.schema) (b : JS.value) (next : Z) : option Store.row :=
  let r := serve sch (POST b) {| Store.rows := []; Store.auto_increment := next |} in
  match ended r, Store.rows (final r) with
  | Responded res, [x] => if status res =? 201 then Some x else None
  | _, _ => None
  end.

(** The records the creates of a history made, oldest first, each with the
    requests that came after it. *)
Fixpoint creations (sch : Store.schema) (next : Z) (cs : list call)
    : list (Store.row * list call) :=
  match cs with
  | [] => []
  | POST b :: rest =>
      match created sch b next with
      | Some r => (r, rest) :: creations sch (next + 1) rest
      | None => creations sch next rest
      end
  | _ :: rest => creations sch next rest
  end.

(** Request [c] is a delete whose identifier is that of record [r]. *)
Definition deletes (sch : Store.schema) (r : Store.row) (c : call) : bool :=
  match c with
  | DELETE id => Store.matches sch (JS.String id) r
  | _ => false
  end.

(** Created and not yet deleted: no later request deletes the record. *)
Definition live (sch : Store.schema) (next : Z) (cs : list call) : list Store.row :=
  map fst (filter (fun p => negb (existsb (deletes sch (fst p)) (snd p)))
                  (creations sch next cs)).

(** ** Vocabulary of the statements *)

(** The values the create handler binds for a body [b]. *)
Definition insert_values (b : JS.value) : list JS.value :=
  [JS.get b "SCHEDULER_TYPE"; JS.get b "SCHEDULER_DETAILS";
   JS.or (JS.get b "NUMBER_OF_DAYS") JS.Null; JS.or (JS.get b "STATUS") JS.Null;
   JS.get b "VENDOR_ID"; JS.Number (JS.of_Z 1)].

Definition answer (code : Z) (j : JS.value) : response := {| status := code; json := j |}.

Definition bad_days : response :=
  answer 400 (error_body (JS.String "Number of Days must be a valid number and less than 7.")).

Definition not_found : response :=
  answer 404 (error_body (JS.String "Schedule not found")).

Definition added (id : JS.number) : response :=
  answer 201 (JS.Object [("message", JS.String "Schedule added successfully!");
                         ("id", JS.Number id)]).

Definition add_failed (err : JS.error) : response :=
  answer 500 (error_body (JS.String ("Error adding schedule: " ++ JS.message err))).

Definition required_present (b : JS.value) : Prop :=
  JS.get b "SCHEDULER_TYPE" <> JS.Undefined /\
  JS.get b "SCHEDULER_DETAILS" <> JS.Undefined /\
  JS.get b "VENDOR_ID" <> JS.Undefined.

Definition updated : response := answer 200 (message_body "Schedule updated successfully!").

Definition update_failed (err : JS.error) : response :=
  answer 500 (error_body (JS.String ("Error updating schedule: " ++ JS.message err))).

Definition deleted : response := answer 200 (message_body "Schedule deleted successfully!").

(** A Number that is neither a zero nor NaN. *)
Definition nonzero (x : JS.number) : bool :=
  match x with
  | S754_zero _ | S754_nan => false
  | _ => true
  end.

(** The rows of the two tables differ at most in NUMBER_OF_DAYS, and only
    where [hit] holds. *)
Definition same_but_days (hit : Store.row -> bool) (r r' : Store.row) : Prop :=
  Store.USER_SCHD_ID r' = Store.USER_SCHD_ID r /\
  Store.scheduler_type r' = Store.scheduler_type r /\
  Store.scheduler_details r' = Store.scheduler_details r /\
  Store.row_status r' = Store.row_status r /\
  Store.vendor_id r' = Store.vendor_id r /\
  Store.insert_id r' = Store.insert_id r /\
  (hit r = false -> r' = r).

(** The keys of the rows are distinct and were all handed out: the state
    of a table that only the four statements have touched. *)
Definition well_keyed (t : Store.table) : Prop :=
  Store.keys_below t /\ NoDup (map Store.USER_SCHD_ID (Store.rows t)).

(** Key [i] was handed out and belongs to no row. *)
Definition retired (i : Z) (t : Store.table) : Prop :=
  i < Store.auto_increment t /\
  forall r, In r (Store.rows t) -> Store.USER_SCHD_ID r <> i.

(** ** Sample requests *)

(** A body with the three required fields and nothing else. *)
Definition minimal_body : JS.value :=
  JS.Object [("SCHEDULER_TYPE", JS.String "daily");
             ("SCHEDULER_DETAILS", JS.String "d");
             ("VENDOR_ID", JS.String "V1")].

Definition with_field (name : string) (v : JS.value) (b : JS.value) : JS.value :=
  match b with
  | JS.Object props => JS.Object ((name, v) :: props)
  | _ => b
  end.

Definition days_body (v : JS.value) : JS.value := JS.Object [("NUMBER_OF_DAYS", v)].

(** The create request of the specification's scenarios: vendor V1, type
    daily, details d, 3 days, status active. *)
Definition scenario_body : JS.value :=
  JS.Object [("SCHEDULER_TYPE", JS.String "daily");
             ("SCHEDULER_DETAILS", JS.String "d");
             ("NUMBER_OF_DAYS", JS.Number (JS.of_Z 3));
             ("STATUS", JS.String "active");
             ("VENDOR_ID", JS.String "V1")].

Definition scenario_row (days : Z) : JS.value :=
  JS.Object [("USER_SCHD_ID", JS.Number (JS.of_Z 1));
             ("SCHEDULER_TYPE", JS.String "daily");
             ("SCHEDULER_DETAILS", JS.String "d");
             ("NUMBER_OF_DAYS", JS.Number (JS.of_Z days));
             ("STATUS", JS.String "active");
             ("VENDOR_ID", JS.String "V1");
             ("INSERT_ID", JS.Number (JS.of_Z 1))].

(** ** Vocabulary of the further properties *)

Definition fetch_failed : response :=
  answer 500 (error_body (JS.String "Failed to fetch schedules")).

Definition delete_failed (err : JS.error) : response :=
  answer 500 (error_body (JS.String ("Error deleting schedule: " ++ JS.message err))).

(** A backend whose every statement is rejected with the same error: a
    database that cannot be reached. *)
Definition unreachable (err : JS.error) (sql : statement) (values : list JS.value)
    (d : unit) : settled * unit :=
  (Rejected err, d).

(** A value that is not an array holding an array: printing it calls into
    no second [join]. *)
Definition flat (v : JS.value) : bool :=
  match v with
  | JS.Array l => negb (existsb (fun x => match x with JS.Array _ => true | _ => false end) l)
  | _ => true
  end.

(** The five properties of the body the create handler reads. *)
Definition create_fields : list string :=
  ["SCHEDULER_TYPE"; "SCHEDULER_DETAILS"; "NUMBER_OF_DAYS"; "STATUS"; "VENDOR_ID"].

(** * Properties *)

(** ** Integers as Numbers

    The count of affected rows reaches the handler as a Number; it is the
    Number zero only for the count zero. *)

Lemma iter_pos_nat {A} (f : A -> A) (p : positive) (x : A) :
  iter_pos f p x = Nat.iter (Pos.to_nat p) f x.
Proof.
  revert x. induction p as [p IH | p IH | ]; intros x; cbn [iter_pos].
  - rewrite !IH, Pos2Nat.inj_xI, <- Nat.iter_add.
    replace (S (2 * Pos.to_nat p))%nat with (Pos.to_nat p + Pos.to_nat p + 1)%nat by lia.
    rewrite (Nat.iter_add _ 1). reflexivity.
  - rewrite !IH, Pos2Nat.inj_xO, <- Nat.iter_add. f_equal. lia.
  - reflexivity.
Qed.

(** Shifting a positive mantissa right by fewer places than it has digits
    leaves a positive mantissa. *)
Lemma shr_iter_positive (k : nat) :
  forall mrs, 0 < shr_m mrs -> Z.of_nat k < Zdigits2 (shr_m mrs) ->
              0 < shr_m (Nat.iter k shr_1 mrs).
Proof.
  induction k as [| k IH]; intros mrs Hpos Hk.
  - exact Hpos.
  - rewrite Nat.iter_succ_r. apply IH.
    + destruct mrs as [m r s]. simpl in *.
      destruct m as [| [p | p |] |]; simpl in *; try lia.
    + destruct mrs as [m r s]. simpl in *.
      destruct m as [| [p | p |] |]; simpl in *; lia.
Qed.

Lemma shr_fexp_positive (m e : Z) (l : location) :
  0 < m -> -1074 <= e ->
  0 < shr_m (fst (shr_fexp JS.prec JS.emax m e l)) /\
  -1074 <= snd (shr_fexp JS.prec JS.emax m e l).
Proof.
  intros Hm He. unfold shr_fexp, shr.
  assert (Hrec : shr_m (shr_record_of_loc m l) = m) by (destruct l as [| []]; reflexivity).
  destruct (fexp JS.prec JS.emax (Zdigits2 m + e) - e) as [| n | n] eqn:Hn; simpl;
    rewrite ?Hrec; try (split; lia).
  split; [| lia].
  rewrite iter_pos_nat. apply shr_iter_positive; rewrite Hrec; [exact Hm |].
  rewrite positive_nat_Z.
  unfold fexp, emin, JS.prec, JS.emax in Hn.
  destruct m as [| p |]; lia.
Qed.

Lemma round_nearest_even_positive (m : Z) (l : location) :
  0 < m -> 0 < round_nearest_even m l.
Proof.
  intros Hm. destruct l as [| []]; simpl; try lia. destruct (Z.even m); lia.
Qed.

Lemma binary_round_aux_nonzero (s : bool) (m e : Z) (l : location) :
  0 < m -> -1074 <= e -> nonzero (binary_round_aux JS.prec JS.emax s m e l) = true.
Proof.
  intros Hm He. unfold binary_round_aux.
  destruct (shr_fexp_positive m e l Hm He) as [H1 H2].
  destruct (shr_fexp JS.prec JS.emax m e l) as [mrs' e']. simpl in H1, H2.
  pose proof (round_nearest_even_positive _ (loc_of_shr_record mrs') H1) as H3.
  destruct (shr_fexp_positive _ e' loc_Exact H3 H2) as [H4 _].
  destruct (shr_fexp JS.prec JS.emax _ e' loc_Exact) as [mrs'' e'']. simpl in H4.
  destruct (shr_m mrs''); try lia.
  destruct (e'' <=? JS.emax - JS.prec); reflexivity.
Qed.

Lemma of_Z_nonzero (p : positive) : nonzero (JS.of_Z (Zpos p)) = true.
Proof.
  unfold JS.of_Z, binary_normalize, binary_round.
  destruct (shl_align p 0 _) as [mz ez] eqn:Hal.
  apply binary_round_aux_nonzero; [lia |].
  unfold shl_align in Hal.
  destruct (fexp JS.prec JS.emax (Z.pos (digits2_pos p) + 0) - 0) eqn:Hd;
    inversion Hal; subst; try lia.
  unfold fexp, emin, JS.prec, JS.emax. lia.
Qed.

Lemma strict_eq_zero_count (n : nat) :
  JS.strict_eq_zero (JS.Number (JS.of_Z (Z.of_nat n))) = Nat.eqb n 0.
Proof.
  destruct n as [| n]; [reflexivity |].
  simpl Z.of_nat. pose proof (of_Z_nonzero (Pos.of_succ_nat n)) as H.
  unfold JS.strict_eq_zero, SFeqb.
  destruct (JS.of_Z (Z.pos (Pos.of_succ_nat n))) as [s | s | | s m e]; simpl in *;
    try discriminate; try reflexivity; destruct s; reflexivity.
Qed.

(** ** The create handler against any backend *)

Section AnyBackend.
Context {db : Type}.
Variable execute : statement -> list JS.value -> db -> settled * db.

Lemma run_post_issued (req : request) (d : db) :
  issued (run execute (post_schedule req) d) = [(INSERT_ROW, insert_values (body req))].
Proof.
  unfold post_schedule, insert_values. cbn [run].
  destruct (execute INSERT_ROW _ d) as [[result | err] d']; reflexivity.
Qed.

Lemma run_post_final (req : request) (d : db) :
  final (run execute (post_schedule req) d)
  = snd (execute INSERT_ROW (insert_values (body req)) d).
Proof.
  unfold post_schedule, insert_values. cbn [run].
  destruct (execute INSERT_ROW _ d) as [[result | err] d']; reflexivity.
Qed.

Lemma run_post_fulfilled (req : request) (d d' : db) (h : ResultSetHeader) :
  execute INSERT_ROW (insert_values (body req)) d = (Fulfilled (Header h), d') ->
  ended (run execute (post_schedule req) d) = Responded (added (insertId h)).
Proof.
  unfold post_schedule, insert_values. cbn [run]. intros ->. reflexivity.
Qed.

Lemma run_post_rejected (req : request) (d d' : db) (err : JS.error) :
  execute INSERT_ROW (insert_values (body req)) d = (Rejected err, d') ->
  ended (run execute (post_schedule req) d) = Responded (add_failed err).
Proof.
  unfold post_schedule, insert_values. cbn [run]. intros ->. reflexivity.
Qed.

Lemma run_post_status (req : request) (d : db) (res : response) :
  ended (run execute (post_schedule req) d) = Responded res ->
  status res = 201 \/ status res = 500.
Proof.
  unfold post_schedule. cbn [run].
  destruct (execute INSERT_ROW _ d) as [[result | err] d']; cbn [run ended];
    intros H; inversion H; subst; cbn; auto.
Qed.

Lemma run_put_invalid (req : request) (d : db) :
  invalid_days (JS.get (body req) "NUMBER_OF_DAYS") = JS.Normal true ->
  run execute (put_schedule req) d
  = {| ended := Responded bad_days; issued := []; final := d |}.
Proof. unfold put_schedule. intros ->. reflexivity. Qed.

Lemma run_put_valid_issued (req : request) (d : db) :
  invalid_days (JS.get (body req) "NUMBER_OF_DAYS") = JS.Normal false ->
  issued (run execute (put_schedule req) d)
  = [(UPDATE_DAYS, [JS.get (body req) "NUMBER_OF_DAYS"; JS.String (params_id req)])].
Proof.
  unfold put_schedule. intros ->. cbn [run].
  destruct (execute UPDATE_DAYS _ d) as [[result | err] d']; cbn [run issued];
    [destruct (JS.strict_eq_zero _) |]; reflexivity.
Qed.
End AnyBackend.

(** ** The validation of the update handler *)

Lemma invalid_days_undefined : invalid_days JS.Undefined = JS.Normal true.
Proof. reflexivity. Qed.

Lemma invalid_days_null : invalid_days JS.Null = JS.Normal true.
Proof. reflexivity. Qed.

Lemma invalid_days_nan (v : JS.value) :
  JS.isNaN v = JS.Normal true -> invalid_days v = JS.Normal true.
Proof.
  intros H. unfold invalid_days. rewrite H.
  destruct (JS.is_undefined v), (JS.is_null v); reflexivity.
Qed.

Lemma ge_not_nan (v : JS.value) (y : JS.number) :
  JS.ge v y = JS.Normal true -> JS.isNaN v = JS.Normal false.
Proof.
  unfold JS.ge, JS.isNaN. destruct (JS.ToNumber v) as [x | e]; cbn; [| discriminate].
  destruct x; cbn; try reflexivity. discriminate.
Qed.

Lemma invalid_days_ge (v : JS.value) :
  JS.ge v (JS.of_Z 7) = JS.Normal true -> invalid_days v = JS.Normal true.
Proof.
  intros H. unfold invalid_days. rewrite (ge_not_nan _ _ H). cbn [JS.bind]. rewrite H.
  destruct (JS.is_undefined v), (JS.is_null v); reflexivity.
Qed.

(** A value that coerces to a Number below 7 and is not [null] passes. *)
Lemma invalid_days_below (v : JS.value) (x : JS.number) :
  v <> JS.Null -> JS.ToNumber v = JS.Normal x -> SFltb x (JS.of_Z 7) = true ->
  invalid_days v = JS.Normal false.
Proof.
  intros Hnull Hnum Hlt.
  assert (Hnan : JS.is_nan x = false) by (destruct x; try reflexivity; discriminate).
  assert (Hdef : JS.is_undefined v = false).
  { destruct v; try reflexivity. cbn in Hnum. inversion Hnum; subst. discriminate. }
  assert (Hnn : JS.is_null v = false) by (destruct v; try reflexivity; congruence).
  unfold invalid_days, JS.isNaN, JS.ge. rewrite Hdef, Hnn, Hnum. cbn [JS.bind].
  rewrite Hnan. unfold SFltb in Hlt.
  destruct (SFcompare x (JS.of_Z 7)) as [[| |] |]; try discriminate. reflexivity.
Qed.

(** Whatever is at least 7 is truthy, so [||] leaves it as it is. *)
Lemma ge_truthy (v : JS.value) :
  JS.ge v (JS.of_Z 7) = JS.Normal true -> JS.ToBoolean v = true.
Proof.
  intros H. destruct v as [| | b | x | s | l | props]; try reflexivity.
  - vm_compute in H. discriminate.
  - vm_compute in H. discriminate.
  - destruct b; [reflexivity | vm_compute in H; discriminate].
  - destruct x as [[] | [] | | [] m e]; try reflexivity; vm_compute in H; discriminate.
  - destruct s; [vm_compute in H; discriminate | reflexivity].
Qed.

Lemma or_null_defined (v : JS.value) : JS.is_undefined (JS.or v JS.Null) = false.
Proof.
  unfold JS.or. destruct (JS.ToBoolean v) eqn:E; [| reflexivity].
  destruct v; try reflexivity. discriminate.
Qed.

(** ** The handlers on the table *)

Lemma unbound_iff_missing (b : JS.value) :
  existsb JS.is_undefined (insert_values b) = false <-> required_present b.
Proof.
  unfold insert_values, required_present. cbn [existsb].
  rewrite !or_null_defined. cbn [JS.is_undefined orb].
  rewrite !orb_false_iff.
  assert (Hu : forall v, JS.is_undefined v = false <-> v <> JS.Undefined).
  { intros v. destruct v; split; intros H; try reflexivity; try discriminate; congruence. }
  rewrite !Hu. tauto.
Qed.

Lemma serve_post_accepted (sch : Store.schema) (b : JS.value) (t : Store.table) (r : Store.row) :
  required_present b ->
  Store.new_row sch (Store.auto_increment t) (insert_values b) = inr r ->
  serve sch (POST b) t
  = {| ended := Responded (added (JS.of_Z (Store.auto_increment t)));
       issued := [(INSERT_ROW, insert_values b)];
       final := {| Store.rows := Store.rows t ++ [r];
                   Store.auto_increment := Store.auto_increment t + 1 |} |}.
Proof.
  intros Hreq Hrow. apply unbound_iff_missing in Hreq.
  unfold serve, route, post_schedule. cbn [run body].
  fold (insert_values b). unfold Store.pool_execute. rewrite Hreq.
  cbn [Store.statement_on]. rewrite Hrow. reflexivity.
Qed.

Lemma serve_post_refused (sch : Store.schema) (b : JS.value) (t : Store.table) (err : JS.error) :
  required_present b ->
  Store.new_row sch (Store.auto_increment t) (insert_values b) = inl err ->
  serve sch (POST b) t
  = {| ended := Responded (add_failed err);
       issued := [(INSERT_ROW, insert_values b)];
       final := t |}.
Proof.
  intros Hreq Hrow. apply unbound_iff_missing in Hreq.
  unfold serve, route, post_schedule. cbn [run body].
  fold (insert_values b). unfold Store.pool_execute. rewrite Hreq.
  cbn [Store.statement_on]. rewrite Hrow. reflexivity.
Qed.

Lemma serve_post_unbound (sch : Store.schema) (b : JS.value) (t : Store.table) :
  ~ required_present b ->
  serve sch (POST b) t
  = {| ended := Responded (add_failed Store.bind_error);
       issued := [(INSERT_ROW, insert_values b)];
       final := t |}.
Proof.
  intros Hreq. rewrite <- unbound_iff_missing in Hreq.
  apply not_false_is_true in Hreq.
  unfold serve, route, post_schedule. cbn [run body].
  fold (insert_values b). unfold Store.pool_execute. rewrite Hreq. reflexivity.
Qed.

Lemma serve_get (sch : Store.schema) (t : Store.table) :
  serve sch GET t
  = {| ended := Responded (answer 200 (JS.Array (map Store.row_object (Store.rows t))));
       issued := [(SELECT_ALL, [])];
       final := t |}.
Proof. reflexivity. Qed.

Lemma filter_none {A : Type} (f : A -> bool) (l : list A) :
  filter f l = [] -> filter (fun x => negb (f x)) l = l.
Proof.
  induction l as [| a l IH]; cbn; [reflexivity |].
  destruct (f a); [discriminate |]. intros H. cbn. f_equal. auto.
Qed.

Lemma filter_none_iff {A : Type} (f : A -> bool) (l : list A) :
  filter f l = [] <-> forall x, In x l -> f x = false.
Proof.
  induction l as [| a l IH]; cbn; [tauto |].
  destruct (f a) eqn:E; split.
  - discriminate.
  - intros H. specialize (H a (or_introl eq_refl)). congruence.
  - intros H x [-> | Hx]; [exact E | apply IH; assumption].
  - intros H. apply IH. intros x Hx. apply H. auto.
Qed.

(** The answer of the delete handler turns on the rows the key finds. *)
Lemma serve_delete (sch : Store.schema) (id : string) (t : Store.table) :
  serve sch (DELETE id) t
  = {| ended := Responded
         match filter (Store.matches sch (JS.String id)) (Store.rows t) with
         | [] => not_found
         | _ :: _ => deleted
         end;
       issued := [(DELETE_ROW, [JS.String id])];
       final := {| Store.rows :=
                     filter (fun r => negb (Store.matches sch (JS.String id) r)) (Store.rows t);
                   Store.auto_increment := Store.auto_increment t |} |}.
Proof.
  unfold serve, route, delete_schedule. cbn [run params_id].
  unfold Store.pool_execute. cbn [existsb JS.is_undefined orb Store.statement_on].
  unfold Store.header. cbn [result_value JS.get JS.lookup String.eqb Ascii.eqb Bool.eqb affectedRows].
  rewrite strict_eq_zero_count.
  destruct (filter _ (Store.rows t)); reflexivity.
Qed.

Lemma invalid_days_defined (v : JS.value) :
  invalid_days v = JS.Normal false -> JS.is_undefined v = false.
Proof. destruct v; try reflexivity. discriminate. Qed.

(** The answer of the update handler to a request that passes the
    validation. *)
Lemma serve_put_valid (sch : Store.schema) (id : string) (b : JS.value) (t : Store.table) :
  let v := JS.get b "NUMBER_OF_DAYS" in
  let k := JS.String id in
  invalid_days v = JS.Normal false ->
  serve sch (PUT id b) t
  = match filter (Store.matches sch k) (Store.rows t) with
    | [] => {| ended := Responded not_found; issued := [(UPDATE_DAYS, [v; k])]; final := t |}
    | _ :: _ =>
        match Store.store_cell sch Store.NUMBER_OF_DAYS v with
        | inl err =>
            {| ended := Responded (update_failed err);
               issued := [(UPDATE_DAYS, [v; k])]; final := t |}
        | inr c =>
            {| ended := Responded updated;
               issued := [(UPDATE_DAYS, [v; k])];
               final := {| Store.rows :=
                             map (fun r => if Store.matches sch k r
                                           then Store.set_days c r else r) (Store.rows t);
                           Store.auto_increment := Store.auto_increment t |} |}
        end
    end.
Proof.
  intros v k Hvalid. subst k. unfold serve, route, put_schedule. cbn [body params_id].
  fold v. rewrite Hvalid. cbn [run].
  unfold Store.pool_execute. cbn [existsb JS.is_undefined orb].
  rewrite (invalid_days_defined _ Hvalid). cbn [orb Store.statement_on].
  destruct (filter (Store.matches sch (JS.String id)) (Store.rows t)) as [| r found] eqn:Hf.
  - reflexivity.
  - destruct (Store.store_cell sch Store.NUMBER_OF_DAYS v) as [err | c].
    + reflexivity.
    + unfold Store.header.
      cbn [run result_value JS.get JS.lookup String.eqb Ascii.eqb Bool.eqb affectedRows].
      rewrite strict_eq_zero_count. reflexivity.
Qed.

(** ** Validation on update (C1, C9) *)

(** The 400 branch of the update handler. An update whose NUMBER_OF_DAYS
    is [undefined] or [null], of which [isNaN] holds, or which is at least 7
    is answered with the 400 response that states the rule. The handler is
    then that response and nothing else: against every backend no statement
    is issued and the backend is left as it was. *)
Theorem update_rejects_invalid_days (req : request) :
  let v := JS.get (body req) "NUMBER_OF_DAYS" in
  v = JS.Undefined \/ v = JS.Null \/
  JS.isNaN v = JS.Normal true \/ JS.ge v (JS.of_Z 7) = JS.Normal true ->
  put_schedule req = Respond bad_days /\
  forall (db : Type) (execute : statement -> list JS.value -> db -> settled * db) (d : db),
    run execute (put_schedule req) d
    = {| ended := Responded bad_days; issued := []; final := d |}.
Proof.
  intros v H.
  assert (Hinv : invalid_days v = JS.Normal true).
  { destruct H as [-> | [-> | [H | H]]].
    - apply invalid_days_undefined.
    - apply invalid_days_null.
    - apply invalid_days_nan, H.
    - apply invalid_days_ge, H. }
  split.
  - unfold put_schedule. fold v. rewrite Hinv. reflexivity.
  - intros db execute d. apply run_put_invalid. exact Hinv.
Qed.

(** Days 7 and days 10, the rejected updates the specification names. *)
Lemma update_rejects_invalid_days_witness :
  let days n := {| params_id := "1";
                   body := JS.Object [("NUMBER_OF_DAYS", JS.Number (JS.of_Z n))] |} in
  (put_schedule (days 7) = Respond bad_days /\
   forall (db : Type) (execute : statement -> list JS.value -> db -> settled * db) (d : db),
     run execute (put_schedule (days 7)) d
     = {| ended := Responded bad_days; issued := []; final := d |}) /\
  (put_schedule (days 10) = Respond bad_days /\
   forall (db : Type) (execute : statement -> list JS.value -> db -> settled * db) (d : db),
     run execute (put_schedule (days 10)) d
     = {| ended := Responded bad_days; issued := []; final := d |}).
Proof.
  intros days. split.
  - apply (update_rejects_invalid_days (days 7)). right. right. right.
    vm_compute. reflexivity.
  - apply (update_rejects_invalid_days (days 10)). right. right. right.
    vm_compute. reflexivity.
Defined.

(** C1. The claim fails on the code at a NUMBER_OF_DAYS that is an object
    with an own [toString] property. Such a value is not a valid number, yet
    the update handler does not answer 400: [isNaN] throws a TypeError, the
    validation stands before the [try], and the exception leaves the
    handler. Against every backend the request ends with that exception, no
    response of the handler and no statement. *)
Theorem update_unprintable_days_is_not_rejected :
  let req := {| params_id := "1";
                body := days_body (JS.Object [("toString", JS.Number (JS.of_Z 1))]) |} in
  JS.isNaN (JS.get (body req) "NUMBER_OF_DAYS") = JS.Throws JS.TypeError_primitive /\
  put_schedule req = Uncaught JS.TypeError_primitive /\
  put_schedule req <> Respond bad_days /\
  forall (db : Type) (execute : statement -> list JS.value -> db -> settled * db) (d : db),
    run execute (put_schedule req) d
    = {| ended := Threw JS.TypeError_primitive; issued := []; final := d |} /\
    ended (run execute (put_schedule req) d) <> Responded bad_days.
Proof.
  intros req.
  assert (Hput : put_schedule req = Uncaught JS.TypeError_primitive) by reflexivity.
  split; [reflexivity |]. split; [exact Hput |]. split; [rewrite Hput; discriminate |].
  intros db execute d. rewrite Hput. split; [reflexivity | discriminate].
Qed.

(** The values C9 names pass the validation. *)
Lemma named_values_pass (v : JS.value) :
  In v [JS.String ""; JS.String "5"; JS.Bool true; JS.Bool false;
        JS.Number (JS.of_Z 0); JS.Number (JS.of_Z (-3))] ->
  invalid_days v = JS.Normal false.
Proof.
  cbn [In]. intros [<- | [<- | [<- | [<- | [<- | [<- | []]]]]]]; vm_compute; reflexivity.
Qed.

(** A Number that is zero or negative is below 7. *)
Lemma not_positive_below_7 (x : JS.number) :
  SFleb x JS.pos_zero = true -> SFltb x (JS.of_Z 7) = true.
Proof.
  assert (E : JS.of_Z 7 = S754_finite false 7881299347898368 (-50))
    by (vm_compute; reflexivity).
  rewrite E. destruct x as [[] | [] | | [] m e]; intros H;
    try (cbv in H; discriminate H); cbv; reflexivity.
Qed.

(** C9, as the code has it. The empty string, the string ["5"], the
    booleans, zero and the negative Numbers pass the validation and are bound
    to the UPDATE as they came; so does every value other than [null] whose
    numeric coercion is a Number below 7. *)
Theorem update_accepts_coercible_days :
  forall (req : request),
    let v := JS.get (body req) "NUMBER_OF_DAYS" in
    (In v [JS.String ""; JS.String "5"; JS.Bool true; JS.Bool false; JS.Number (JS.of_Z 0)]
     \/ (exists x, v = JS.Number x /\ SFleb x JS.pos_zero = true)
     \/ (v <> JS.Null /\ exists x, JS.ToNumber v = JS.Normal x /\ SFltb x (JS.of_Z 7) = true)) ->
    invalid_days v = JS.Normal false /\
    forall (db : Type) (execute : statement -> list JS.value -> db -> settled * db) (d : db),
      issued (run execute (put_schedule req) d)
      = [(UPDATE_DAYS, [v; JS.String (params_id req)])].
Proof.
  intros req v H.
  assert (Hinv : invalid_days v = JS.Normal false).
  { destruct H as [H | [(x & -> & Hx) | (Hnull & x & Hnum & Hlt)]].
    - apply named_values_pass. cbn [In] in *. tauto.
    - apply (invalid_days_below _ x); [discriminate | reflexivity |].
      apply not_positive_below_7, Hx.
    - apply (invalid_days_below _ x); assumption. }
  split; [exact Hinv |].
  intros db execute d. apply run_put_valid_issued. exact Hinv.
Qed.

Lemma update_accepts_coercible_days_witness :
  let req := {| params_id := "4"; body := JS.Object [("NUMBER_OF_DAYS", JS.String "5")] |} in
  invalid_days (JS.String "5") = JS.Normal false /\
  forall (db : Type) (execute : statement -> list JS.value -> db -> settled * db) (d : db),
    issued (run execute (put_schedule req) d)
    = [(UPDATE_DAYS, [JS.String "5"; JS.String "4"])].
Proof.
  intros req. apply (update_accepts_coercible_days req).
  right. right. split; [discriminate |].
  exists (JS.of_Z 5). split; vm_compute; reflexivity.
Defined.

(** C9 as it is written fails at [null]: its numeric coercion is +0, which
    is below 7, and the update is answered 400 without a statement. *)
Lemma null_coerces_below_7_but_is_rejected :
  ~ (forall (req : request) (x : JS.number),
       let v := JS.get (body req) "NUMBER_OF_DAYS" in
       JS.ToNumber v = JS.Normal x -> SFltb x (JS.of_Z 7) = true ->
       invalid_days v = JS.Normal false).
Proof.
  intros H.
  specialize (H {| params_id := "1"; body := JS.Object [("NUMBER_OF_DAYS", JS.Null)] |}
                JS.pos_zero).
  vm_compute in H. specialize (H eq_refl eq_refl). discriminate H.
Qed.

(** ** Creation (C2, C4, C8, C10) *)

(** What [new_row] keeps of each bound value. *)
Lemma new_row_cells (sch : Store.schema) (id : Z) (v1 v2 v3 v4 v5 v6 : JS.value)
    (r : Store.row) :
  Store.new_row sch id [v1; v2; v3; v4; v5; v6] = inr r ->
  Store.USER_SCHD_ID r = id /\
  Store.store_cell sch Store.SCHEDULER_TYPE v1 = inr (Store.scheduler_type r) /\
  Store.store_cell sch Store.SCHEDULER_DETAILS v2 = inr (Store.scheduler_details r) /\
  Store.store_cell sch Store.NUMBER_OF_DAYS v3 = inr (Store.number_of_days r) /\
  Store.store_cell sch Store.STATUS v4 = inr (Store.row_status r) /\
  Store.store_cell sch Store.VENDOR_ID v5 = inr (Store.vendor_id r) /\
  Store.store_cell sch Store.INSERT_ID v6 = inr (Store.insert_id r).
Proof.
  unfold Store.new_row, Store.and_then.
  destruct (Store.store_cell sch Store.SCHEDULER_TYPE v1); [discriminate |].
  destruct (Store.store_cell sch Store.SCHEDULER_DETAILS v2); [discriminate |].
  destruct (Store.store_cell sch Store.NUMBER_OF_DAYS v3); [discriminate |].
  destruct (Store.store_cell sch Store.STATUS v4); [discriminate |].
  destruct (Store.store_cell sch Store.VENDOR_ID v5); [discriminate |].
  destruct (Store.store_cell sch Store.INSERT_ID v6); [discriminate |].
  intros H. inversion H; subst. cbn. repeat split; reflexivity.
Qed.

(** A stored NULL: the only cell [store_cell] makes of a NULL value. *)
Lemma store_cell_null (sch : Store.schema) (c : Store.column) (x : JS.value) :
  Store.store_cell sch c JS.Null = inr x -> x = JS.Null.
Proof.
  cbn. destruct (Store.nullable sch c); intros H; inversion H; reflexivity.
Qed.

Lemma or_null_falsy (v : JS.value) : JS.ToBoolean v = false -> JS.or v JS.Null = JS.Null.
Proof. unfold JS.or. intros ->. reflexivity. Qed.

Lemma or_null_truthy (v : JS.value) : JS.ToBoolean v = true -> JS.or v JS.Null = v.
Proof. unfold JS.or. intros ->. reflexivity. Qed.

Lemma minimal_body_present : required_present minimal_body.
Proof. unfold required_present, minimal_body. cbn. repeat split; discriminate. Qed.

(** C2. The create handler always binds the value 1 for the insertion
    marker, and [null] for a NUMBER_OF_DAYS or STATUS that the body does
    not have; whenever the INSERT succeeds it answers 201 with a message and
    the identifier the store reports. On the table: when the required fields
    are there and the store takes the bound values, the request is answered
    201 with the new key, the row is appended with the stored marker, and a
    missing NUMBER_OF_DAYS or STATUS is NULL in it. *)
Theorem create_stores_null_for_missing (b : JS.value) :
  (nth_error (insert_values b) 5 = Some (JS.Number (JS.of_Z 1)) /\
   (JS.get b "NUMBER_OF_DAYS" = JS.Undefined -> nth_error (insert_values b) 2 = Some JS.Null) /\
   (JS.get b "STATUS" = JS.Undefined -> nth_error (insert_values b) 3 = Some JS.Null)) /\
  (forall (db : Type) (execute : statement -> list JS.value -> db -> settled * db) (d : db),
      issued (run execute (post_schedule {| params_id := ""; body := b |}) d)
      = [(INSERT_ROW, insert_values b)] /\
      forall (h : ResultSetHeader) (d' : db),
        execute INSERT_ROW (insert_values b) d = (Fulfilled (Header h), d') ->
        ended (run execute (post_schedule {| params_id := ""; body := b |}) d)
        = Responded (added (insertId h))) /\
  (forall (sch : Store.schema) (t : Store.table) (r : Store.row),
      required_present b ->
      Store.new_row sch (Store.auto_increment t) (insert_values b) = inr r ->
      serve sch (POST b) t
      = {| ended := Responded (added (JS.of_Z (Store.auto_increment t)));
           issued := [(INSERT_ROW, insert_values b)];
           final := {| Store.rows := Store.rows t ++ [r];
                       Store.auto_increment := Store.auto_increment t + 1 |} |} /\
      Store.store_cell sch Store.INSERT_ID (JS.Number (JS.of_Z 1)) = inr (Store.insert_id r) /\
      (JS.get b "NUMBER_OF_DAYS" = JS.Undefined -> Store.number_of_days r = JS.Null) /\
      (JS.get b "STATUS" = JS.Undefined -> Store.row_status r = JS.Null)).
Proof.
  split; [| split].
  - unfold insert_values. cbn [nth_error]. repeat split.
    + intros ->. reflexivity.
    + intros ->. reflexivity.
  - intros db execute d. split.
    + apply (run_post_issued execute {| params_id := ""; body := b |}).
    + intros h d'. apply (run_post_fulfilled execute {| params_id := ""; body := b |}).
  - intros sch t r Hreq Hrow. split; [apply serve_post_accepted; assumption |].
    apply new_row_cells in Hrow.
    destruct Hrow as (_ & _ & _ & H3 & H4 & _ & H6).
    split; [exact H6 |]. split.
    + intros Hmiss. rewrite Hmiss in H3. apply (store_cell_null _ _ _ H3).
    + intros Hmiss. rewrite Hmiss in H4. apply (store_cell_null _ _ _ H4).
Qed.

Lemma create_stores_null_for_missing_witness :
  exists r : Store.row,
    serve Store.plain_schema (POST minimal_body) Store.empty
    = {| ended := Responded (added (JS.of_Z 1));
         issued := [(INSERT_ROW, insert_values minimal_body)];
         final := {| Store.rows := [r]; Store.auto_increment := 2 |} |} /\
    Store.insert_id r = JS.Number (JS.of_Z 1) /\
    Store.number_of_days r = JS.Null /\
    Store.row_status r = JS.Null.
Proof.
  eexists.
  destruct (create_stores_null_for_missing minimal_body) as (_ & _ & H).
  destruct (H Store.plain_schema Store.empty _ minimal_body_present eq_refl)
    as (Hserve & Hmark & Hdays & Hstatus).
  split; [exact Hserve |]. split; [reflexivity |].
  split; [apply Hdays | apply Hstatus]; reflexivity.
Defined.

(** C4. The create handler looks at no field before it issues the INSERT:
    against every backend the one statement issued is the INSERT with the
    bound values, whatever NUMBER_OF_DAYS and VENDOR_ID are, and the answer
    is never a 400. A NUMBER_OF_DAYS of 7 or more is bound as it came and,
    when the store takes the values, is inserted and answered 201, while the
    update handler answers 400 to the same value. *)
Theorem create_does_not_validate (b : JS.value) :
  (forall (db : Type) (execute : statement -> list JS.value -> db -> settled * db) (d : db),
      let r := run execute (post_schedule {| params_id := ""; body := b |}) d in
      issued r = [(INSERT_ROW, insert_values b)] /\
      nth_error (insert_values b) 4 = Some (JS.get b "VENDOR_ID") /\
      forall res, ended r = Responded res -> status res <> 400) /\
  (JS.ge (JS.get b "NUMBER_OF_DAYS") (JS.of_Z 7) = JS.Normal true ->
   nth_error (insert_values b) 2 = Some (JS.get b "NUMBER_OF_DAYS") /\
   (forall (sch : Store.schema) (t : Store.table) (r : Store.row),
       required_present b ->
       Store.new_row sch (Store.auto_increment t) (insert_values b) = inr r ->
       serve sch (POST b) t
       = {| ended := Responded (added (JS.of_Z (Store.auto_increment t)));
            issued := [(INSERT_ROW, insert_values b)];
            final := {| Store.rows := Store.rows t ++ [r];
                        Store.auto_increment := Store.auto_increment t + 1 |} |} /\
       Store.store_cell sch Store.NUMBER_OF_DAYS (JS.get b "NUMBER_OF_DAYS")
       = inr (Store.number_of_days r)) /\
   (forall id : string, put_schedule {| params_id := id; body := b |} = Respond bad_days)).
Proof.
  split.
  - intros db execute d r. subst r. split; [| split].
    + apply (run_post_issued execute {| params_id := ""; body := b |}).
    + reflexivity.
    + intros res Hres.
      destruct (run_post_status execute _ _ _ Hres) as [H | H]; rewrite H; discriminate.
  - intros Hge. pose proof (or_null_truthy _ (ge_truthy _ Hge)) as Hor.
    split; [| split].
    + unfold insert_values. cbn [nth_error]. rewrite Hor. reflexivity.
    + intros sch t r Hreq Hrow. split; [apply serve_post_accepted; assumption |].
      unfold insert_values in Hrow. rewrite Hor in Hrow.
      apply new_row_cells in Hrow. tauto.
    + intros id. unfold put_schedule. cbn [body].
      rewrite (invalid_days_ge _ Hge). reflexivity.
Qed.

Lemma create_does_not_validate_witness :
  let b := with_field "NUMBER_OF_DAYS" (JS.Number (JS.of_Z 7)) minimal_body in
  exists r : Store.row,
    serve Store.plain_schema (POST b) Store.empty
    = {| ended := Responded (added (JS.of_Z 1));
         issued := [(INSERT_ROW, insert_values b)];
         final := {| Store.rows := [r]; Store.auto_increment := 2 |} |} /\
    Store.number_of_days r = JS.Number (JS.of_Z 7) /\
    put_schedule {| params_id := "1"; body := b |} = Respond bad_days.
Proof.
  intros b. eexists.
  destruct (create_does_not_validate b) as (_ & H).
  assert (Hge : JS.ge (JS.get b "NUMBER_OF_DAYS") (JS.of_Z 7) = JS.Normal true)
    by (vm_compute; reflexivity).
  destruct (H Hge) as (_ & Hstore & Hput).
  assert (Hreq : required_present b)
    by (unfold required_present; cbn; repeat split; discriminate).
  destruct (Hstore Store.plain_schema Store.empty _ Hreq eq_refl) as (Hserve & Hcell).
  split; [exact Hserve |]. split; [reflexivity | apply Hput].
Defined.

(** The falsy values C8 names. *)
Lemma named_values_falsy (v : JS.value) :
  In v [JS.Number (JS.of_Z 0); JS.String ""; JS.Bool false] ->
  JS.ToBoolean v = false /\ v <> JS.Null.
Proof.
  cbn [In]. intros [<- | [<- | [<- | []]]]; split; try reflexivity; discriminate.
Qed.

(** C8. The number 0, the empty string and [false] are falsy and are not
    [null]; for every falsy NUMBER_OF_DAYS or STATUS the create handler binds
    [null] in place of the value, and the row the store makes of the bound
    values has NULL in that column. *)
Theorem create_nulls_every_falsy_value (b : JS.value) :
  (forall v, In v [JS.Number (JS.of_Z 0); JS.String ""; JS.Bool false] ->
             JS.ToBoolean v = false /\ v <> JS.Null) /\
  (JS.ToBoolean (JS.get b "NUMBER_OF_DAYS") = false ->
   nth_error (insert_values b) 2 = Some JS.Null /\
   forall (sch : Store.schema) (id : Z) (r : Store.row),
     Store.new_row sch id (insert_values b) = inr r -> Store.number_of_days r = JS.Null) /\
  (JS.ToBoolean (JS.get b "STATUS") = false ->
   nth_error (insert_values b) 3 = Some JS.Null /\
   forall (sch : Store.schema) (id : Z) (r : Store.row),
     Store.new_row sch id (insert_values b) = inr r -> Store.row_status r = JS.Null) /\
  (forall (db : Type) (execute : statement -> list JS.value -> db -> settled * db) (d : db),
      issued (run execute (post_schedule {| params_id := ""; body := b |}) d)
      = [(INSERT_ROW, insert_values b)]).
Proof.
  split; [exact named_values_falsy |]. split; [| split].
  - intros Hf. pose proof (or_null_falsy _ Hf) as Hor. split.
    + unfold insert_values. cbn [nth_error]. rewrite Hor. reflexivity.
    + intros sch id r Hrow. unfold insert_values in Hrow. rewrite Hor in Hrow.
      apply new_row_cells in Hrow. destruct Hrow as (_ & _ & _ & H3 & _).
      apply (store_cell_null _ _ _ H3).
  - intros Hf. pose proof (or_null_falsy _ Hf) as Hor. split.
    + unfold insert_values. cbn [nth_error]. rewrite Hor. reflexivity.
    + intros sch id r Hrow. unfold insert_values in Hrow. rewrite Hor in Hrow.
      apply new_row_cells in Hrow. destruct Hrow as (_ & _ & _ & _ & H4 & _).
      apply (store_cell_null _ _ _ H4).
  - intros db execute d. apply (run_post_issued execute {| params_id := ""; body := b |}).
Qed.

Lemma create_nulls_every_falsy_value_witness :
  let b := with_field "NUMBER_OF_DAYS" (JS.Number (JS.of_Z 0))
             (with_field "STATUS" (JS.String "") minimal_body) in
  exists r : Store.row,
    Store.rows (final (serve Store.plain_schema (POST b) Store.empty)) = [r] /\
    Store.number_of_days r = JS.Null /\ Store.row_status r = JS.Null.
Proof.
  intros b. eexists.
  destruct (create_nulls_every_falsy_value b) as (_ & Hdays & Hstatus & _).
  destruct (Hdays eq_refl) as (_ & Hd). destruct (Hstatus eq_refl) as (_ & Hs).
  split; [reflexivity |].
  split; [apply (Hd Store.plain_schema 1) | apply (Hs Store.plain_schema 1)]; reflexivity.
Defined.

(** C10. When SCHEDULER_TYPE, SCHEDULER_DETAILS or VENDOR_ID is missing,
    [undefined] is among the values the create handler binds. Against every
    backend the handler issues the INSERT, never answers 400, and answers a
    rejected INSERT with 500 and the text of the error; the driver rejects
    the [undefined] value, so on the table the answer is that 500 and nothing
    is stored. *)
Theorem create_missing_required_is_500 (b : JS.value) :
  JS.get b "SCHEDULER_TYPE" = JS.Undefined \/
  JS.get b "SCHEDULER_DETAILS" = JS.Undefined \/
  JS.get b "VENDOR_ID" = JS.Undefined ->
  In JS.Undefined (insert_values b) /\
  (forall (db : Type) (execute : statement -> list JS.value -> db -> settled * db) (d : db),
      let r := run execute (post_schedule {| params_id := ""; body := b |}) d in
      issued r = [(INSERT_ROW, insert_values b)] /\
      (forall res, ended r = Responded res -> status res <> 400) /\
      (forall (err : JS.error) (d' : db),
          execute INSERT_ROW (insert_values b) d = (Rejected err, d') ->
          ended r = Responded (add_failed err))) /\
  (forall (sch : Store.schema) (t : Store.table),
      serve sch (POST b) t
      = {| ended := Responded (add_failed Store.bind_error);
           issued := [(INSERT_ROW, insert_values b)];
           final := t |}).
Proof.
  intros Hmiss. split; [| split].
  - unfold insert_values. cbn [In]. destruct Hmiss as [H | [H | H]]; rewrite H; tauto.
  - intros db execute d r. subst r. split; [| split].
    + apply (run_post_issued execute {| params_id := ""; body := b |}).
    + intros res Hres.
      destruct (run_post_status execute _ _ _ Hres) as [H | H]; rewrite H; discriminate.
    + intros err d'. apply (run_post_rejected execute {| params_id := ""; body := b |}).
  - intros sch t. apply serve_post_unbound. unfold required_present. tauto.
Qed.

Lemma create_missing_required_is_500_witness :
  let b := JS.Object [("SCHEDULER_TYPE", JS.String "daily");
                      ("SCHEDULER_DETAILS", JS.String "d")] in
  serve Store.plain_schema (POST b) Store.empty
  = {| ended := Responded (add_failed Store.bind_error);
       issued := [(INSERT_ROW, insert_values b)];
       final := Store.empty |}.
Proof.
  intros b.
  assert (Hmiss : JS.get b "SCHEDULER_TYPE" = JS.Undefined \/
                  JS.get b "SCHEDULER_DETAILS" = JS.Undefined \/
                  JS.get b "VENDOR_ID" = JS.Undefined) by (right; right; reflexivity).
  destruct (create_missing_required_is_500 b Hmiss) as (_ & _ & H).
  apply H.
Defined.

(** ** Update and delete on the table (C5, C6, C7) *)

(** The update handler in full: what the validation says decides between
    the exception, the 400 and the statement. *)
Lemma serve_put_invalid (sch : Store.schema) (id : string) (b : JS.value) (t : Store.table) :
  invalid_days (JS.get b "NUMBER_OF_DAYS") = JS.Normal true ->
  serve sch (PUT id b) t = {| ended := Responded bad_days; issued := []; final := t |}.
Proof. intros H. unfold serve, route. apply run_put_invalid. exact H. Qed.

Lemma serve_put_throws (sch : Store.schema) (id : string) (b : JS.value) (t : Store.table)
    (err : JS.error) :
  invalid_days (JS.get b "NUMBER_OF_DAYS") = JS.Throws err ->
  serve sch (PUT id b) t = {| ended := Threw err; issued := []; final := t |}.
Proof. intros H. unfold serve, route, put_schedule. cbn [body]. rewrite H. reflexivity. Qed.

(** An update is answered with the 200 message only when the validation
    passed, a row was found and the store took the value. *)
Lemma serve_put_updated (sch : Store.schema) (id : string) (b : JS.value) (t : Store.table) :
  ended (serve sch (PUT id b) t) = Responded updated ->
  exists c,
    invalid_days (JS.get b "NUMBER_OF_DAYS") = JS.Normal false /\
    filter (Store.matches sch (JS.String id)) (Store.rows t) <> [] /\
    Store.store_cell sch Store.NUMBER_OF_DAYS (JS.get b "NUMBER_OF_DAYS") = inr c /\
    final (serve sch (PUT id b) t)
    = {| Store.rows := map (fun r => if Store.matches sch (JS.String id) r
                                     then Store.set_days c r else r) (Store.rows t);
         Store.auto_increment := Store.auto_increment t |}.
Proof.
  destruct (invalid_days (JS.get b "NUMBER_OF_DAYS")) as [[|] | err] eqn:Hv.
  - rewrite (serve_put_invalid _ _ _ _ Hv). discriminate.
  - rewrite (serve_put_valid sch id b t Hv).
    destruct (filter _ (Store.rows t)) as [| r found]; [discriminate |].
    destruct (Store.store_cell sch Store.NUMBER_OF_DAYS _) as [err | c]; [discriminate |].
    intros _. exists c. repeat split. discriminate.
  - rewrite (serve_put_throws _ _ _ _ _ Hv). discriminate.
Qed.

Lemma matches_set_days (sch : Store.schema) (k c : JS.value) (r : Store.row) :
  Store.matches sch k (Store.set_days c r) = Store.matches sch k r.
Proof. reflexivity. Qed.

Lemma set_days_frame (hit : Store.row -> bool) (c : JS.value) (l : list Store.row) :
  Forall2 (same_but_days hit) l (map (fun r => if hit r then Store.set_days c r else r) l).
Proof.
  induction l as [| r l IH]; cbn [map]; constructor; [| exact IH].
  unfold same_but_days. destruct (hit r); cbn; repeat split; congruence.
Qed.

(** Rows with distinct keys: the key finds at most one of them. *)
Lemma map_unmatched (sch : Store.schema) (k : JS.value) (f : Store.row -> Store.row)
    (l : list Store.row) :
  filter (Store.matches sch k) l = [] ->
  map (fun r => if Store.matches sch k r then f r else r) l = l.
Proof.
  induction l as [| r l IH]; cbn; [reflexivity |].
  destruct (Store.matches sch k r); [discriminate |]. intros H. f_equal. auto.
Qed.

Lemma matches_same_key (sch : Store.schema) (k : JS.value) (r r' : Store.row) :
  Store.matches sch k r = true -> Store.matches sch k r' = true ->
  Store.USER_SCHD_ID r = Store.USER_SCHD_ID r'.
Proof.
  unfold Store.matches. destruct (Store.key_of sch k); [| discriminate].
  rewrite !Z.eqb_eq. congruence.
Qed.

Lemma update_one_row (sch : Store.schema) (k c : JS.value) (l : list Store.row) :
  NoDup (map Store.USER_SCHD_ID l) ->
  filter (Store.matches sch k) l <> [] ->
  exists before r after,
    l = (before ++ r :: after)%list /\
    Store.matches sch k r = true /\
    map (fun r => if Store.matches sch k r then Store.set_days c r else r) l
    = (before ++ Store.set_days c r :: after)%list.
Proof.
  induction l as [| r l IH]; cbn [map filter]; intros Hnd Hf; [congruence |].
  inversion Hnd as [| ? ? Hnotin Hnd']; subst.
  destruct (Store.matches sch k r) eqn:Hr.
  - exists [], r, l. repeat split; [exact Hr |]. cbn [app]. f_equal.
    apply map_unmatched. apply filter_none_iff. intros x Hx.
    destruct (Store.matches sch k x) eqn:Hmx; [| reflexivity].
    exfalso. apply Hnotin. rewrite (matches_same_key _ _ _ _ Hr Hmx).
    apply in_map. exact Hx.
  - destruct (IH Hnd' Hf) as (before & r0 & after & -> & Hm & Hmap).
    exists (r :: before), r0, after. repeat split; [exact Hm |].
    cbn [app]. f_equal. exact Hmap.
Qed.

(** C5. The update handler reads nothing of the body but NUMBER_OF_DAYS.
    After an update answered with the 200 message, the table has the same
    counter and, position by position, the rows it had: a row the
    identifier does not match is the same row, a matching row differs at
    most in NUMBER_OF_DAYS, which is now what the store keeps of the value
    sent. When the keys of the table are distinct, exactly one row was
    rewritten. *)
Theorem update_changes_only_days (sch : Store.schema) (id : string) (b : JS.value)
    (t : Store.table) :
  (forall b', JS.get b' "NUMBER_OF_DAYS" = JS.get b "NUMBER_OF_DAYS" ->
              serve sch (PUT id b') t = serve sch (PUT id b) t) /\
  (ended (serve sch (PUT id b) t) = Responded updated ->
   let t' := final (serve sch (PUT id b) t) in
   let hit := Store.matches sch (JS.String id) in
   Store.auto_increment t' = Store.auto_increment t /\
   Forall2 (same_but_days hit) (Store.rows t) (Store.rows t') /\
   (exists c,
       Store.store_cell sch Store.NUMBER_OF_DAYS (JS.get b "NUMBER_OF_DAYS") = inr c /\
       (forall r', In r' (Store.rows t') -> hit r' = true -> Store.number_of_days r' = c) /\
       (NoDup (map Store.USER_SCHD_ID (Store.rows t)) ->
        exists before r after,
          Store.rows t = (before ++ r :: after)%list /\
          hit r = true /\
          Store.rows t' = (before ++ Store.set_days c r :: after)%list))).
Proof.
  split.
  - intros b' Hsame. unfold serve, route, put_schedule. cbn [body params_id].
    rewrite Hsame. reflexivity.
  - intros Hok t' hit.
    destruct (serve_put_updated _ _ _ _ Hok) as (c & Hvalid & Hfound & Hcell & Hfinal).
    subst t'. rewrite Hfinal. cbn [Store.rows Store.auto_increment].
    split; [reflexivity |]. split; [apply set_days_frame |].
    exists c. split; [exact Hcell |]. split.
    + intros r' Hin Hhit. apply in_map_iff in Hin. destruct Hin as (r & Hr & _).
      fold hit in Hr. destruct (hit r) eqn:E.
      * subst r'. reflexivity.
      * subst r'. congruence.
    + intros Hnd. apply update_one_row; assumption.
Qed.

Lemma update_changes_only_days_witness :
  let t := serve_all Store.plain_schema
             [POST minimal_body;
              POST (with_field "NUMBER_OF_DAYS" (JS.Number (JS.of_Z 3)) minimal_body)]
             Store.empty in
  let b := with_field "STATUS" (JS.String "ignored") (days_body (JS.Number (JS.of_Z 5))) in
  let t' := final (serve Store.plain_schema (PUT "2" b) t) in
  Store.auto_increment t' = Store.auto_increment t /\
  Forall2 (same_but_days (Store.matches Store.plain_schema (JS.String "2")))
          (Store.rows t) (Store.rows t') /\
  map Store.number_of_days (Store.rows t') = [JS.Null; JS.Number (JS.of_Z 5)].
Proof.
  intros t b t'.
  destruct (update_changes_only_days Store.plain_schema "2" b t) as (_ & H).
  assert (Hok : ended (serve Store.plain_schema (PUT "2" b) t) = Responded updated)
    by (vm_compute; reflexivity).
  destruct (H Hok) as (Hcount & Hframe & _).
  split; [exact Hcount |]. split; [exact Hframe |]. vm_compute. reflexivity.
Defined.

Section AnyBackendUpdate.
Context {db : Type}.
Variable execute : statement -> list JS.value -> db -> settled * db.

(** Whatever the backend, a settled UPDATE that reports no affected row
    is answered 404. *)
Lemma run_put_no_row (req : request) (d d' : db) (h : ResultSetHeader) :
  invalid_days (JS.get (body req) "NUMBER_OF_DAYS") = JS.Normal false ->
  execute UPDATE_DAYS [JS.get (body req) "NUMBER_OF_DAYS"; JS.String (params_id req)] d
  = (Fulfilled (Header h), d') ->
  JS.strict_eq_zero (JS.Number (affectedRows h)) = true ->
  ended (run execute (put_schedule req) d) = Responded not_found.
Proof.
  intros Hv Hex Hz. unfold put_schedule. rewrite Hv. cbn [run]. rewrite Hex.
  cbn [run result_value JS.get JS.lookup String.eqb Ascii.eqb Bool.eqb].
  rewrite Hz. reflexivity.
Qed.
End AnyBackendUpdate.

(** C6. An update that passes the validation and whose identifier matches
    no row issues the UPDATE, is answered with the 404 response, and leaves
    the table as it was. The 404 is neither the status of the validation
    response nor that of a storage error. Against every backend, a settled
    UPDATE without affected rows is answered 404. *)
Theorem update_unknown_id_is_404 (sch : Store.schema) (id : string) (b : JS.value)
    (t : Store.table) :
  invalid_days (JS.get b "NUMBER_OF_DAYS") = JS.Normal false ->
  (forall r, In r (Store.rows t) -> Store.matches sch (JS.String id) r = false) ->
  serve sch (PUT id b) t
  = {| ended := Responded not_found;
       issued := [(UPDATE_DAYS, [JS.get b "NUMBER_OF_DAYS"; JS.String id])];
       final := t |} /\
  status not_found = 404 /\
  status not_found <> status bad_days /\
  (forall err, status not_found <> status (update_failed err)) /\
  (forall (db : Type) (execute : statement -> list JS.value -> db -> settled * db)
          (d d' : db) (h : ResultSetHeader),
      execute UPDATE_DAYS [JS.get b "NUMBER_OF_DAYS"; JS.String id] d
      = (Fulfilled (Header h), d') ->
      JS.strict_eq_zero (JS.Number (affectedRows h)) = true ->
      ended (run execute (put_schedule {| params_id := id; body := b |}) d)
      = Responded not_found).
Proof.
  intros Hvalid Hnone. split; [| split; [| split; [| split]]].
  - rewrite (serve_put_valid sch id b t Hvalid).
    apply filter_none_iff in Hnone. rewrite Hnone. reflexivity.
  - reflexivity.
  - discriminate.
  - intros err. discriminate.
  - intros db execute d d' h Hex Hz.
    apply (run_put_no_row execute {| params_id := id; body := b |} d d' h); assumption.
Qed.

Lemma update_unknown_id_is_404_witness :
  let t := serve_all Store.plain_schema [POST minimal_body] Store.empty in
  let b := days_body (JS.Number (JS.of_Z 5)) in
  serve Store.plain_schema (PUT "42" b) t
  = {| ended := Responded not_found;
       issued := [(UPDATE_DAYS, [JS.Number (JS.of_Z 5); JS.String "42"])];
       final := t |}.
Proof.
  intros t b.
  refine (proj1 (update_unknown_id_is_404 Store.plain_schema "42" b t _ _)).
  - vm_compute. reflexivity.
  - intros r Hin. vm_compute in Hin. destruct Hin as [<- | []]. vm_compute. reflexivity.
Defined.

(** ** Keys are never handed out twice *)

(** What a create does to the table. *)
Lemma serve_post_final (sch : Store.schema) (b : JS.value) (t : Store.table) :
  final (serve sch (POST b) t) = t \/
  exists r, Store.USER_SCHD_ID r = Store.auto_increment t /\
            final (serve sch (POST b) t)
            = {| Store.rows := Store.rows t ++ [r];
                 Store.auto_increment := Store.auto_increment t + 1 |}.
Proof.
  destruct (existsb JS.is_undefined (insert_values b)) eqn:Hu.
  - left. rewrite serve_post_unbound; [reflexivity |].
    rewrite <- unbound_iff_missing. congruence.
  - apply unbound_iff_missing in Hu.
    destruct (Store.new_row sch (Store.auto_increment t) (insert_values b)) as [err | r] eqn:Hrow.
    + left. rewrite (serve_post_refused _ _ _ _ Hu Hrow). reflexivity.
    + right. exists r. rewrite (serve_post_accepted _ _ _ _ Hu Hrow).
      split; [| reflexivity]. apply new_row_cells in Hrow. tauto.
Qed.

(** What an update does to the table. *)
Lemma serve_put_final (sch : Store.schema) (id : string) (b : JS.value) (t : Store.table) :
  final (serve sch (PUT id b) t) = t \/
  exists c, final (serve sch (PUT id b) t)
            = {| Store.rows := map (fun r => if Store.matches sch (JS.String id) r
                                             then Store.set_days c r else r) (Store.rows t);
                 Store.auto_increment := Store.auto_increment t |}.
Proof.
  destruct (invalid_days (JS.get b "NUMBER_OF_DAYS")) as [[|] | err] eqn:Hv.
  - left. rewrite (serve_put_invalid _ _ _ _ Hv). reflexivity.
  - rewrite (serve_put_valid sch id b t Hv).
    destruct (filter _ (Store.rows t)) as [| r found]; [left; reflexivity |].
    destruct (Store.store_cell sch Store.NUMBER_OF_DAYS _) as [err | c];
      [left; reflexivity | right; exists c; reflexivity].
  - left. rewrite (serve_put_throws _ _ _ _ _ Hv). reflexivity.
Qed.

Lemma serve_keeps_retired (sch : Store.schema) (i : Z) (c : call) (t : Store.table) :
  retired i t -> retired i (final (serve sch c t)).
Proof.
  intros [Hlt Hout]. destruct c as [| b | id b | id].
  - rewrite serve_get. split; assumption.
  - destruct (serve_post_final sch b t) as [-> | (r & Hid & ->)]; [split; assumption |].
    split; cbn [Store.rows Store.auto_increment]; [lia |].
    intros r' Hin. apply in_app_or in Hin. destruct Hin as [Hin | [<- | []]].
    + apply Hout, Hin.
    + lia.
  - destruct (serve_put_final sch id b t) as [-> | (c & ->)]; [split; assumption |].
    split; cbn [Store.rows Store.auto_increment]; [assumption |].
    intros r' Hin. apply in_map_iff in Hin. destruct Hin as (r & <- & Hin).
    specialize (Hout r Hin). destruct (Store.matches sch (JS.String id) r); assumption.
  - rewrite serve_delete. split; cbn [final Store.rows Store.auto_increment]; [assumption |].
    intros r' Hin. apply filter_In in Hin. apply Hout, Hin.
Qed.

Lemma serve_all_keeps_retired (sch : Store.schema) (i : Z) (cs : list call) :
  forall t, retired i t -> retired i (serve_all sch cs t).
Proof.
  induction cs as [| c cs IH]; intros t H; cbn [serve_all]; [exact H |].
  apply IH, serve_keeps_retired, H.
Qed.

(** Dropping rows keeps the keys distinct. *)
Lemma filter_keys_incl (p : Store.row -> bool) (l : list Store.row) :
  incl (map Store.USER_SCHD_ID (filter p l)) (map Store.USER_SCHD_ID l).
Proof.
  intros k Hk. apply in_map_iff in Hk. destruct Hk as (r & <- & Hr).
  apply in_map. apply filter_In in Hr. apply Hr.
Qed.

Lemma filter_keys_distinct (p : Store.row -> bool) (l : list Store.row) :
  NoDup (map Store.USER_SCHD_ID l) ->
  NoDup (map Store.USER_SCHD_ID (filter p l)).
Proof.
  induction l as [| r l IH]; cbn [filter map]; [intros _; constructor |].
  rewrite NoDup_cons_iff. intros [Hfresh Hrest].
  destruct (p r); [| exact (IH Hrest)].
  cbn [map]. apply NoDup_cons; [| exact (IH Hrest)].
  intros Hk. apply Hfresh, (filter_keys_incl p l), Hk.
Qed.

Lemma set_days_keys (hit : Store.row -> bool) (c : JS.value) (l : list Store.row) :
  map Store.USER_SCHD_ID (map (fun r => if hit r then Store.set_days c r else r) l)
  = map Store.USER_SCHD_ID l.
Proof.
  rewrite map_map. apply map_ext. intros r. destruct (hit r); reflexivity.
Qed.

(** Every request leaves the table well keyed: a create takes the counter as
    the new key and moves the counter past it, an update keeps the keys, a
    delete drops rows. *)
Lemma serve_keeps_well_keyed (sch : Store.schema) (c : call) (t : Store.table) :
  well_keyed t -> well_keyed (final (serve sch c t)).
Proof.
  unfold well_keyed, Store.keys_below. intros [Hbelow Hnd].
  destruct c as [| b | id b | id].
  - rewrite serve_get. split; assumption.
  - destruct (serve_post_final sch b t) as [-> | (r & Hid & ->)]; [split; assumption |].
    cbn [Store.rows Store.auto_increment]. split.
    + apply Forall_app. split.
      * eapply Forall_impl; [| exact Hbelow]. cbn beta. intros; lia.
      * constructor; [lia | constructor].
    + rewrite map_app. cbn [map]. apply NoDup_app; [exact Hnd | repeat constructor; auto |].
      intros k Hin [<- | []]. rewrite Forall_forall in Hbelow.
      apply in_map_iff in Hin. destruct Hin as (x & Hx & Hin).
      specialize (Hbelow x Hin). lia.
  - destruct (serve_put_final sch id b t) as [-> | (c & ->)]; [split; assumption |].
    cbn [Store.rows Store.auto_increment]. split.
    + rewrite Forall_map. eapply Forall_impl; [| exact Hbelow]. cbn beta.
      intros r Hr. destruct (Store.matches sch (JS.String id) r); exact Hr.
    + rewrite set_days_keys. exact Hnd.
  - rewrite serve_delete. cbn [final Store.rows Store.auto_increment]. split.
    + rewrite Forall_forall in *. intros r Hin. apply filter_In in Hin. apply Hbelow, Hin.
    + apply filter_keys_distinct, Hnd.
Qed.

Lemma empty_well_keyed : well_keyed Store.empty.
Proof. split; constructor. Qed.

(** Every table the server reaches from the empty one is well keyed. *)
Lemma serve_all_well_keyed (sch : Store.schema) (cs : list call) :
  forall t, well_keyed t -> well_keyed (serve_all sch cs t).
Proof.
  induction cs as [| c cs IH]; intros t H; cbn [serve_all]; [exact H |].
  apply IH, serve_keeps_well_keyed, H.
Qed.

Lemma delete_retires (sch : Store.schema) (id : string) (t : Store.table) (r : Store.row) :
  Store.keys_below t -> In r (Store.rows t) ->
  Store.matches sch (JS.String id) r = true ->
  retired (Store.USER_SCHD_ID r) (final (serve sch (DELETE id) t)).
Proof.
  intros Hbelow Hin Hhit. rewrite serve_delete.
  split; cbn [final Store.rows Store.auto_increment].
  - unfold Store.keys_below in Hbelow. rewrite Forall_forall in Hbelow. apply Hbelow, Hin.
  - intros r' Hin' Heq. apply filter_In in Hin'. destruct Hin' as [_ Hmiss].
    unfold Store.matches in *. destruct (Store.key_of sch (JS.String id)); [| discriminate].
    rewrite Heq in Hmiss. rewrite Hhit in Hmiss. discriminate.
Qed.

Lemma filter_twice {A : Type} (f : A -> bool) (l : list A) :
  filter f (filter (fun x => negb (f x)) l) = [].
Proof.
  induction l as [| a l IH]; cbn; [reflexivity |].
  destruct (f a) eqn:E; cbn; [exact IH | rewrite E; exact IH].
Qed.

(** C7. A delete whose identifier matches no row is answered 404 and leaves
    the table as it was. A delete whose identifier matches a row is answered
    with the 200 message and leaves the rows it does not match; the same
    delete once more is answered 404; and in a table whose keys are all
    below the counter, after any further requests the listing is the rows
    of the table, none of which the identifier matches, and the same delete
    is answered 404. *)
Theorem delete_removes_or_404 (sch : Store.schema) (id : string) (t : Store.table) :
  let hit := Store.matches sch (JS.String id) in
  let after := final (serve sch (DELETE id) t) in
  ((forall r, In r (Store.rows t) -> hit r = false) ->
   serve sch (DELETE id) t
   = {| ended := Responded not_found; issued := [(DELETE_ROW, [JS.String id])]; final := t |}) /\
  ((exists r, In r (Store.rows t) /\ hit r = true) ->
   ended (serve sch (DELETE id) t) = Responded deleted /\
   Store.rows after = filter (fun r => negb (hit r)) (Store.rows t) /\
   Store.auto_increment after = Store.auto_increment t /\
   serve sch (DELETE id) after
   = {| ended := Responded not_found; issued := [(DELETE_ROW, [JS.String id])];
        final := after |} /\
   (Store.keys_below t ->
    forall cs : list call,
      let later := serve_all sch cs after in
      ended (serve sch GET later)
      = Responded (answer 200 (JS.Array (map Store.row_object (Store.rows later)))) /\
      (forall r, In r (Store.rows later) -> hit r = false) /\
      serve sch (DELETE id) later
      = {| ended := Responded not_found; issued := [(DELETE_ROW, [JS.String id])];
           final := later |})).
Proof.
  intros hit after.
  assert (Hunmatched : forall t0 : Store.table,
             filter hit (Store.rows t0) = [] ->
             serve sch (DELETE id) t0
             = {| ended := Responded not_found; issued := [(DELETE_ROW, [JS.String id])];
                  final := t0 |}).
  { intros t0 Hnone. rewrite serve_delete. fold hit. rewrite Hnone.
    rewrite (filter_none _ _ Hnone). destruct t0; reflexivity. }
  split.
  - intros Hnone. apply Hunmatched, filter_none_iff, Hnone.
  - intros (r & Hin & Hhit).
    assert (Hfound : filter hit (Store.rows t) <> []).
    { intros Hnone. rewrite filter_none_iff in Hnone. rewrite (Hnone r Hin) in Hhit.
      discriminate. }
    subst after. rewrite serve_delete. fold hit. cbn [ended final Store.rows Store.auto_increment].
    split; [destruct (filter hit (Store.rows t)); [congruence | reflexivity] |].
    split; [reflexivity |]. split; [reflexivity |]. split.
    + apply Hunmatched. cbn [Store.rows]. apply filter_twice.
    + intros Hbelow cs. cbv zeta. split; [rewrite serve_get; reflexivity |].
      pose proof (delete_retires sch id t r Hbelow Hin Hhit) as Hret.
      rewrite serve_delete in Hret. cbn [final] in Hret.
      apply (serve_all_keeps_retired sch _ cs) in Hret. fold hit in Hret.
      destruct Hret as [_ Hout].
      assert (Hgone : forall r', In r' (Store.rows (serve_all sch cs
                 {| Store.rows := filter (fun r0 => negb (hit r0)) (Store.rows t);
                    Store.auto_increment := Store.auto_increment t |})) -> hit r' = false).
      { intros r' Hin'. destruct (hit r') eqn:E; [| reflexivity].
        exfalso. apply (Hout r' Hin'). symmetry.
        apply (matches_same_key sch (JS.String id)); assumption. }
      split; [exact Hgone |]. apply Hunmatched, filter_none_iff, Hgone.
Qed.

Lemma delete_removes_or_404_witness :
  let t := serve_all Store.plain_schema
             [POST minimal_body;
              POST (with_field "NUMBER_OF_DAYS" (JS.Number (JS.of_Z 3)) minimal_body)]
             Store.empty in
  let after := final (serve Store.plain_schema (DELETE "1") t) in
  serve Store.plain_schema (DELETE "9") t
  = {| ended := Responded not_found; issued := [(DELETE_ROW, [JS.String "9"])]; final := t |} /\
  ended (serve Store.plain_schema (DELETE "1") t) = Responded deleted /\
  map Store.USER_SCHD_ID (Store.rows after) = [2] /\
  ended (serve Store.plain_schema (DELETE "1") after) = Responded not_found /\
  map Store.USER_SCHD_ID
      (Store.rows (serve_all Store.plain_schema [POST minimal_body; GET] after)) = [2; 3].
Proof.
  intros t after.
  destruct (delete_removes_or_404 Store.plain_schema "9" t) as (Hmiss & _).
  destruct (delete_removes_or_404 Store.plain_schema "1" t) as (_ & Hhit).
  split.
  - apply Hmiss. intros r Hin. vm_compute in Hin.
    destruct Hin as [<- | [<- | []]]; vm_compute; reflexivity.
  - assert (Hex : exists r, In r (Store.rows t) /\
                            Store.matches Store.plain_schema (JS.String "1") r = true).
    { eexists. split; [left; reflexivity | vm_compute; reflexivity]. }
    destruct (Hhit Hex) as (Hended & Hrows & _ & Hagain & _).
    split; [exact Hended |]. split; [vm_compute; reflexivity |].
    split; [fold after in Hagain; rewrite Hagain; reflexivity | vm_compute; reflexivity].
Defined.

(** ** Listing after creates and deletes (C3) *)

(** A create on any table stores the record [created] describes. *)
Lemma serve_post_created (sch : Store.schema) (b : JS.value) (t : Store.table) :
  final (serve sch (POST b) t)
  = match created sch b (Store.auto_increment t) with
    | Some r => {| Store.rows := Store.rows t ++ [r];
                   Store.auto_increment := Store.auto_increment t + 1 |}
    | None => t
    end.
Proof.
  unfold created.
  destruct (existsb JS.is_undefined (insert_values b)) eqn:Hu.
  - assert (Hmiss : ~ required_present b) by (rewrite <- unbound_iff_missing; congruence).
    rewrite !(serve_post_unbound _ _ _ Hmiss). reflexivity.
  - apply unbound_iff_missing in Hu.
    destruct (Store.new_row sch (Store.auto_increment t) (insert_values b)) as [err | r] eqn:Hrow.
    + rewrite (serve_post_refused _ _ t _ Hu Hrow).
      rewrite (serve_post_refused _ _ {| Store.rows := []; Store.auto_increment := _ |} _ Hu Hrow).
      reflexivity.
    + rewrite (serve_post_accepted _ _ t _ Hu Hrow).
      rewrite (serve_post_accepted _ _ {| Store.rows := []; Store.auto_increment := _ |} _ Hu Hrow).
      reflexivity.
Qed.

Lemma filter_after_delete (sch : Store.schema) (id : string) (cs : list call)
    (l : list Store.row) :
  filter (fun r => negb (existsb (deletes sch r) cs))
         (filter (fun r => negb (Store.matches sch (JS.String id) r)) l)
  = filter (fun r => negb (existsb (deletes sch r) (DELETE id :: cs))) l.
Proof.
  induction l as [| r l IHl]; [reflexivity |].
  cbn [filter existsb deletes].
  destruct (Store.matches sch (JS.String id) r); cbn [negb orb filter]; [exact IHl |].
  destruct (negb (existsb (deletes sch r) cs)); [f_equal |]; exact IHl.
Qed.

(** The rows of a table after creates and deletes: the rows it had that no
    delete matched, then the live records of the history. *)
Lemma rows_after_history (sch : Store.schema) (cs : list call) :
  Forall create_or_delete cs ->
  forall t,
    Store.rows (serve_all sch cs t)
    = (filter (fun r => negb (existsb (deletes sch r) cs)) (Store.rows t)
       ++ live sch (Store.auto_increment t) cs)%list.
Proof.
  induction 1 as [| c cs Hc Hcs IH]; intros t.
  - cbn. rewrite app_nil_r. induction (Store.rows t) as [| r l IHl]; cbn; congruence.
  - destruct c as [| b | id b | id]; try contradiction; cbn [serve_all].
    + rewrite IH, serve_post_created. unfold live. cbn [creations existsb deletes orb].
      destruct (created sch b (Store.auto_increment t)) as [r |];
        cbn [Store.rows Store.auto_increment]; [| reflexivity].
      rewrite filter_app. cbn [filter map fst snd]. rewrite <- app_assoc. f_equal.
      destruct (negb (existsb (deletes sch r) cs)); reflexivity.
    + rewrite IH, serve_delete. cbn [final Store.rows Store.auto_increment].
      unfold live. cbn [creations]. f_equal. apply filter_after_delete.
Qed.

(** C3. After any sequence of creates and deletes on the empty table, the
    list request answers 200 with exactly the records created and not yet
    deleted, oldest first, which are the rows in storage order; it issues the
    SELECT only and leaves the table as it was. *)
Theorem list_is_created_minus_deleted (sch : Store.schema) (cs : list call) :
  Forall create_or_delete cs ->
  let t := serve_all sch cs Store.empty in
  Store.rows t = live sch 1 cs /\
  serve sch GET t
  = {| ended := Responded (answer 200 (JS.Array (map Store.row_object (live sch 1 cs))));
       issued := [(SELECT_ALL, [])];
       final := t |}.
Proof.
  intros Hcs t.
  assert (Hrows : Store.rows t = live sch 1 cs).
  { subst t. rewrite (rows_after_history sch cs Hcs). reflexivity. }
  split; [exact Hrows |]. rewrite serve_get, Hrows. reflexivity.
Qed.

Lemma list_is_created_minus_deleted_witness :
  let cs := [POST minimal_body;
             POST (with_field "NUMBER_OF_DAYS" (JS.Number (JS.of_Z 3)) minimal_body);
             DELETE "1";
             POST (days_body (JS.Number (JS.of_Z 2)));
             POST (with_field "STATUS" (JS.String "active") minimal_body);
             DELETE "1"] in
  let t := serve_all Store.plain_schema cs Store.empty in
  map Store.USER_SCHD_ID (live Store.plain_schema 1 cs) = [2; 3] /\
  serve Store.plain_schema GET t
  = {| ended := Responded (answer 200 (JS.Array (map Store.row_object
                                                     (live Store.plain_schema 1 cs))));
       issued := [(SELECT_ALL, [])];
       final := t |}.
Proof.
  intros cs t. split; [vm_compute; reflexivity |].
  refine (proj2 (list_is_created_minus_deleted Store.plain_schema cs _)).
  repeat constructor.
Defined.

(** ** The scenarios of the specification, run on the plain schema *)

Example scenario_create_then_list :
  let created := serve Store.plain_schema (POST scenario_body) Store.empty in
  ended created = Responded (added (JS.of_Z 1)) /\
  ended (serve Store.plain_schema GET (final created))
  = Responded (answer 200 (JS.Array [scenario_row 3])).
Proof. vm_compute. split; reflexivity. Qed.

Example scenario_update_then_list :
  let t := serve_all Store.plain_schema [POST scenario_body] Store.empty in
  let put := serve Store.plain_schema (PUT "1" (days_body (JS.Number (JS.of_Z 5)))) t in
  ended put = Responded updated /\
  ended (serve Store.plain_schema GET (final put))
  = Responded (answer 200 (JS.Array [scenario_row 5])).
Proof. vm_compute. split; reflexivity. Qed.

Example scenario_update_too_many_days :
  let t := serve_all Store.plain_schema [POST scenario_body] Store.empty in
  serve Store.plain_schema (PUT "1" (days_body (JS.Number (JS.of_Z 7)))) t
  = {| ended := Responded bad_days; issued := []; final := t |} /\
  serve Store.plain_schema (PUT "1" (days_body (JS.Number (JS.of_Z 10)))) t
  = {| ended := Responded bad_days; issued := []; final := t |}.
Proof. vm_compute. split; reflexivity. Qed.

Example scenario_delete_twice :
  let t := serve_all Store.plain_schema [POST scenario_body] Store.empty in
  let first := serve Store.plain_schema (DELETE "1") t in
  ended first = Responded deleted /\
  Store.rows (final first) = [] /\
  ended (serve Store.plain_schema (DELETE "1") (final first)) = Responded not_found.
Proof. vm_compute. repeat split; reflexivity. Qed.

(** An object that hides [toString] makes [isNaN] throw: the exception
    leaves the update handler before any response or statement. *)
Example update_with_unprintable_days :
  serve Store.plain_schema
        (PUT "1" (days_body (JS.Object [("toString", JS.Number (JS.of_Z 1))]))) Store.empty
  = {| ended := Threw JS.TypeError_primitive; issued := []; final := Store.empty |}.
Proof. vm_compute. reflexivity. Qed.

(** * Further properties of the handlers *)

(** ** When the coercion of NUMBER_OF_DAYS throws *)

(** [JS.ToNumber], the conversion without the bound of the call stack,
    throws on exactly the values whose text cannot be made, and then with
    the one TypeError. *)
Lemma ToNumber_cases :
  forall v : JS.value,
    (JS.unprintable v = false /\ exists x, JS.ToNumber v = JS.Normal x) \/
    (JS.unprintable v = true /\ JS.ToNumber v = JS.Throws JS.TypeError_primitive).
Proof.
  fix IH 1. intros v.
  destruct v as [| | b | x | s | l | props]; try (left; split; [reflexivity | eexists; reflexivity]).
  - cbn [JS.unprintable JS.ToNumber].
    destruct (existsb JS.unprintable l) eqn:Hl; [right; split; reflexivity |].
    left. split; [reflexivity |].
    destruct l as [| x [| y l']]; try (eexists; reflexivity).
    cbn [existsb] in Hl. rewrite orb_false_r in Hl.
    pose proof (IH x) as IHx.
    destruct x as [| | b | x | s | l2 | props]; try (eexists; reflexivity).
    destruct IHx as [[_ Hn] | [Hu _]]; [exact Hn | congruence].
  - cbn [JS.unprintable JS.ToNumber].
    destruct (JS.has_own "toString" props); [right | left]; split; try reflexivity.
    eexists; reflexivity.
Qed.

Lemma invalid_days_cases (v : JS.value) :
  (JS.unprintable v = false /\ exists b, invalid_days v = JS.Normal b) \/
  (JS.unprintable v = true /\ invalid_days v = JS.Throws JS.TypeError_primitive).
Proof.
  destruct (ToNumber_cases v) as [[Hp [x Hx]] | [Hu Ht]].
  - left. split; [exact Hp |]. unfold invalid_days, JS.isNaN, JS.ge. rewrite Hx.
    cbn [JS.bind].
    destruct (JS.is_undefined v), (JS.is_null v), (JS.is_nan x); eexists; reflexivity.
  - right. split; [exact Hu |]. unfold invalid_days, JS.isNaN. rewrite Ht.
    destruct v; try discriminate; reflexivity.
Qed.

(** X3. For an update whose body is an object and whose NUMBER_OF_DAYS is
    not an array holding an array: when the value is an object with an own
    [toString] property, or an array with such an object among its elements,
    the TypeError of the coercion ends the update against every backend,
    with no response and no statement; for every other such value the
    request is answered. Arrays that hold arrays are left out: printing them
    may go deeper than the call stack allows. *)
Theorem update_throws_on_unprintable_days (id : string) (props : list (string * JS.value)) :
  let req := {| params_id := id; body := JS.Object props |} in
  let v := JS.lookup "NUMBER_OF_DAYS" props in
  flat v = true ->
  (JS.unprintable v = true ->
   forall (db : Type) (execute : statement -> list JS.value -> db -> settled * db) (d : db),
     run execute (put_schedule req) d
     = {| ended := Threw JS.TypeError_primitive; issued := []; final := d |}) /\
  (JS.unprintable v = false ->
   forall (db : Type) (execute : statement -> list JS.value -> db -> settled * db) (d : db),
     exists res, ended (run execute (put_schedule req) d) = Responded res).
Proof.
  intros req v _. subst req. unfold put_schedule. cbn [body params_id JS.get]. fold v.
  split; intros Hv db execute d.
  - destruct (invalid_days_cases v) as [[Hp _] | [_ Ht]]; [congruence |].
    rewrite Ht. reflexivity.
  - destruct (invalid_days_cases v) as [[_ [b Hb]] | [Hu _]]; [| congruence].
    rewrite Hb. destruct b; cbn [run].
    + eexists. reflexivity.
    + destruct (execute UPDATE_DAYS _ d) as [[result | err] d']; cbn [run ended].
      * destruct (JS.strict_eq_zero _); eexists; reflexivity.
      * eexists. reflexivity.
Qed.

Lemma update_throws_on_unprintable_days_witness :
  let hidden := JS.Array [JS.Number (JS.of_Z 5); JS.Object [("toString", JS.Null)]] in
  run (unreachable JS.TypeError_primitive)
      (put_schedule {| params_id := "1"; body := days_body hidden |}) tt
  = {| ended := Threw JS.TypeError_primitive; issued := []; final := tt |} /\
  exists res,
    ended (run (unreachable JS.TypeError_primitive)
               (put_schedule {| params_id := "1"; body := days_body (JS.Array []) |}) tt)
    = Responded res.
Proof.
  intros hidden. split.
  - apply (proj1 (update_throws_on_unprintable_days
                    "1" [("NUMBER_OF_DAYS", hidden)] eq_refl)).
    reflexivity.
  - apply (proj2 (update_throws_on_unprintable_days
                    "1" [("NUMBER_OF_DAYS", JS.Array [])] eq_refl)).
    reflexivity.
Defined.

(** ** What the validation decides *)

Lemma compare_with_7_nan (x : JS.number) :
  SFcompare x (JS.of_Z 7) = None -> JS.is_nan x = true.
Proof.
  assert (E : JS.of_Z 7 = S754_finite false 7881299347898368 (-50))
    by (vm_compute; reflexivity).
  rewrite E. destruct x as [[] | [] | | [] m e]; cbn [SFcompare]; try discriminate.
  reflexivity.
Qed.

(** X6. For a NUMBER_OF_DAYS whose numeric coercion does not throw, the
    update handler answers 400 exactly when the value is [null] or its Number
    is not below 7 (NaN is not); a Number below 7 has no lower bound and need
    not be an integer. Otherwise the value is bound to the UPDATE as it
    came. *)
Theorem update_rejects_iff_not_below_7 (req : request) (x : JS.number) :
  let v := JS.get (body req) "NUMBER_OF_DAYS" in
  JS.ToNumber v = JS.Normal x ->
  (put_schedule req = Respond bad_days <-> v = JS.Null \/ SFltb x (JS.of_Z 7) = false) /\
  (v <> JS.Null -> SFltb x (JS.of_Z 7) = true ->
   forall (db : Type) (execute : statement -> list JS.value -> db -> settled * db) (d : db),
     issued (run execute (put_schedule req) d)
     = [(UPDATE_DAYS, [v; JS.String (params_id req)])]).
Proof.
  intros v Hnum.
  assert (Hpass : v <> JS.Null -> SFltb x (JS.of_Z 7) = true ->
                  invalid_days v = JS.Normal false)
    by (intros Hn Hlt; apply (invalid_days_below v x); assumption).
  assert (Hfail : SFltb x (JS.of_Z 7) = false -> invalid_days v = JS.Normal true).
  { intros Hlt. unfold SFltb in Hlt.
    destruct (SFcompare x (JS.of_Z 7)) as [[| |] |] eqn:Hc; try discriminate.
    - apply invalid_days_ge. unfold JS.ge. rewrite Hnum. cbn [JS.bind]. rewrite Hc. reflexivity.
    - apply invalid_days_ge. unfold JS.ge. rewrite Hnum. cbn [JS.bind]. rewrite Hc. reflexivity.
    - apply invalid_days_nan. unfold JS.isNaN. rewrite Hnum. cbn [JS.bind].
      rewrite (compare_with_7_nan _ Hc). reflexivity. }
  split; [split |].
  - intros Hput. destruct (SFltb x (JS.of_Z 7)) eqn:Hlt; [| right; reflexivity].
    left. destruct v eqn:Hv; try reflexivity;
      (assert (Hi : invalid_days v = JS.Normal false)
         by (subst v; rewrite Hv; apply Hpass; [discriminate | reflexivity]);
       unfold put_schedule in Hput; fold v in Hput; rewrite Hi in Hput; discriminate).
  - intros [Hnull | Hlt]; unfold put_schedule; fold v.
    + rewrite Hnull. reflexivity.
    + rewrite (Hfail Hlt). reflexivity.
  - intros Hn Hlt db execute d. apply run_put_valid_issued. apply Hpass; assumption.
Qed.

Lemma update_rejects_iff_not_below_7_witness :
  let half := JS.StringToNumber "6.5" in
  let req := {| params_id := "3"; body := days_body (JS.Number half) |} in
  issued (run (Store.pool_execute Store.plain_schema) (put_schedule req) Store.empty)
  = [(UPDATE_DAYS, [JS.Number half; JS.String "3"])].
Proof.
  intros half req.
  assert (Hnum : JS.ToNumber (JS.get (body req) "NUMBER_OF_DAYS") = JS.Normal half)
    by reflexivity.
  apply (proj2 (update_rejects_iff_not_below_7 req half Hnum)).
  - discriminate.
  - vm_compute. reflexivity.
Defined.

(** ** Storage errors and the answers of the handlers *)

(** X1. When the statement is rejected, the list handler answers 500 with
    one fixed text that holds nothing of the error, while the create, update
    and delete handlers answer 500 with their own prefix followed by the
    message of the error. The update handler never sends its fallback text
    ['Unknown database error']: the prefixed text is not empty. *)
Theorem rejected_statement_answers
    (db : Type) (execute : statement -> list JS.value -> db -> settled * db)
    (req : request) (err : JS.error) (d d' : db) :
  (execute SELECT_ALL [] d = (Rejected err, d') ->
   ended (run execute (get_schedules req) d) = Responded fetch_failed) /\
  (execute INSERT_ROW (insert_values (body req)) d = (Rejected err, d') ->
   ended (run execute (post_schedule req) d) = Responded (add_failed err)) /\
  (invalid_days (JS.get (body req) "NUMBER_OF_DAYS") = JS.Normal false ->
   execute UPDATE_DAYS [JS.get (body req) "NUMBER_OF_DAYS"; JS.String (params_id req)] d
   = (Rejected err, d') ->
   ended (run execute (put_schedule req) d) = Responded (update_failed err) /\
   json (update_failed err) <> error_body (JS.String "Unknown database error")) /\
  (execute DELETE_ROW [JS.String (params_id req)] d = (Rejected err, d') ->
   ended (run execute (delete_schedule req) d) = Responded (delete_failed err)).
Proof.
  split; [| split; [| split]].
  - intros Hex. unfold get_schedules. cbn [run]. rewrite Hex. reflexivity.
  - apply run_post_rejected.
  - intros Hv Hex. split.
    + unfold put_schedule. rewrite Hv. cbn [run]. rewrite Hex. reflexivity.
    + discriminate.
  - intros Hex. unfold delete_schedule. cbn [run]. rewrite Hex. reflexivity.
Qed.

Lemma rejected_statement_answers_witness :
  let err := {| JS.message := "connect ECONNREFUSED" |} in
  let req := {| params_id := "1"; body := days_body (JS.Number (JS.of_Z 5)) |} in
  ended (run (unreachable err) (get_schedules req) tt) = Responded fetch_failed /\
  ended (run (unreachable err) (post_schedule req) tt) = Responded (add_failed err) /\
  ended (run (unreachable err) (put_schedule req) tt) = Responded (update_failed err) /\
  ended (run (unreachable err) (delete_schedule req) tt) = Responded (delete_failed err).
Proof.
  intros err req.
  destruct (rejected_statement_answers unit (unreachable err) req err tt tt)
    as (Hget & Hpost & Hput & Hdelete).
  split; [apply Hget; reflexivity |].
  split; [apply Hpost; reflexivity |].
  split; [| apply Hdelete; reflexivity].
  apply Hput; [vm_compute |]; reflexivity.
Defined.

(** X2. Against every backend each handler issues at most one statement.
    The list handler answers 200 or 500 and the delete handler 200, 404 or
    500, and neither lets an exception escape. The create handler, when it
    answers, answers 201 or 500, and the update handler 200, 400, 404 or
    500; a request of these two that ends with an exception has issued no
    statement. *)
Theorem handlers_end_within_contract
    (db : Type) (execute : statement -> list JS.value -> db -> settled * db)
    (c : call) (d : db) :
  let r := run execute (route c) d in
  (List.length (issued r) <= 1)%nat /\
  match c, ended r with
  | GET, Responded res => status res = 200 \/ status res = 500
  | POST _, Responded res => status res = 201 \/ status res = 500
  | PUT _ _, Responded res =>
      status res = 200 \/ status res = 400 \/ status res = 404 \/ status res = 500
  | DELETE _, Responded res => status res = 200 \/ status res = 404 \/ status res = 500
  | POST _, Threw _ | PUT _ _, Threw _ => issued r = []
  | GET, Threw _ | DELETE _, Threw _ => False
  end.
Proof.
  destruct c as [| b | id b | id]; cbn [route].
  - unfold get_schedules. cbn [run].
    destruct (execute SELECT_ALL [] d) as [[result | err] d']; cbn; auto.
  - unfold post_schedule. cbn [run].
    destruct (execute INSERT_ROW _ d) as [[result | err] d']; cbn; auto.
  - unfold put_schedule. cbn [body params_id].
    destruct (invalid_days_cases (JS.get b "NUMBER_OF_DAYS")) as [[_ [[|] ->]] | [_ ->]];
      cbn [run ended issued List.length]; auto 6.
    destruct (execute UPDATE_DAYS _ d) as [[result | err] d']; cbn [run ended issued].
    + destruct (JS.strict_eq_zero _); cbn; auto 6.
    + cbn. auto 6.
  - unfold delete_schedule. cbn [run].
    destruct (execute DELETE_ROW _ d) as [[result | err] d']; cbn [run ended issued].
    + destruct (JS.strict_eq_zero _); cbn; auto.
    + cbn. auto.
Qed.

(** ** What an answer says about the table *)

(** X4. A request that is answered with a status of 400 or more, or that
    ends with an exception, leaves the table exactly as it was. *)
Theorem failed_request_changes_nothing (sch : Store.schema) (c : call) (t : Store.table) :
  (forall res, ended (serve sch c t) = Responded res -> 400 <= status res ->
               final (serve sch c t) = t) /\
  (forall err, ended (serve sch c t) = Threw err -> final (serve sch c t) = t).
Proof.
  destruct c as [| b | id b | id].
  - rewrite serve_get. split; reflexivity.
  - destruct (existsb JS.is_undefined (insert_values b)) eqn:Hu.
    + assert (Hmiss : ~ required_present b) by (rewrite <- unbound_iff_missing; congruence).
      rewrite (serve_post_unbound _ _ _ Hmiss). split; reflexivity.
    + apply unbound_iff_missing in Hu.
      destruct (Store.new_row sch (Store.auto_increment t) (insert_values b))
        as [err | r] eqn:Hrow.
      * rewrite (serve_post_refused _ _ _ _ Hu Hrow). split; reflexivity.
      * rewrite (serve_post_accepted _ _ _ _ Hu Hrow). cbn [ended final]. split.
        -- intros res Hres. inversion Hres; subst. cbn. lia.
        -- discriminate.
  - destruct (invalid_days (JS.get b "NUMBER_OF_DAYS")) as [[|] | err] eqn:Hv.
    + rewrite (serve_put_invalid _ _ _ _ Hv). split; reflexivity.
    + rewrite (serve_put_valid sch id b t Hv).
      destruct (filter _ (Store.rows t)) as [| r found]; [split; reflexivity |].
      destruct (Store.store_cell sch Store.NUMBER_OF_DAYS _) as [err | c];
        [split; reflexivity |].
      cbn [ended final]. split.
      * intros res Hres. inversion Hres; subst. cbn. lia.
      * discriminate.
    + rewrite (serve_put_throws _ _ _ _ _ Hv). split; reflexivity.
  - rewrite serve_delete. cbn [ended final].
    destruct (filter (Store.matches sch (JS.String id)) (Store.rows t)) as [| r found] eqn:Hf.
    + rewrite (filter_none _ _ Hf). destruct t. split; reflexivity.
    + split.
      * intros res Hres. inversion Hres; subst. cbn. lia.
      * discriminate.
Qed.

Lemma failed_request_changes_nothing_witness :
  let t := serve_all Store.plain_schema [POST scenario_body] Store.empty in
  final (serve Store.plain_schema (PUT "8" (days_body (JS.Number (JS.of_Z 2)))) t) = t /\
  final (serve Store.plain_schema (POST (days_body (JS.Number (JS.of_Z 2)))) t) = t /\
  final (serve Store.plain_schema
           (PUT "1" (days_body (JS.Object [("toString", JS.Null)]))) t) = t.
Proof.
  intros t. split; [| split].
  - apply (proj1 (failed_request_changes_nothing Store.plain_schema
                    (PUT "8" (days_body (JS.Number (JS.of_Z 2)))) t) not_found).
    + vm_compute. reflexivity.
    + vm_compute. discriminate.
  - apply (proj1 (failed_request_changes_nothing Store.plain_schema
                    (POST (days_body (JS.Number (JS.of_Z 2)))) t)
                 (add_failed Store.bind_error)).
    + vm_compute. reflexivity.
    + vm_compute. discriminate.
  - apply (proj2 (failed_request_changes_nothing Store.plain_schema
                    (PUT "1" (days_body (JS.Object [("toString", JS.Null)]))) t)
                 JS.TypeError_primitive).
    vm_compute. reflexivity.
Defined.

(** ** Updates compose *)

Lemma filter_set_days (sch : Store.schema) (k c : JS.value) (l : list Store.row) :
  filter (Store.matches sch k)
         (map (fun r => if Store.matches sch k r then Store.set_days c r else r) l)
  = map (Store.set_days c) (filter (Store.matches sch k) l).
Proof.
  induction l as [| r l IH]; [reflexivity |]. cbn [map filter].
  destruct (Store.matches sch k r) eqn:Hr.
  - rewrite matches_set_days, Hr. cbn [map]. f_equal. exact IH.
  - rewrite Hr. exact IH.
Qed.

Lemma set_days_twice (sch : Store.schema) (k c : JS.value) (l : list Store.row) :
  let f := fun r => if Store.matches sch k r then Store.set_days c r else r in
  map f (map f l) = map f l.
Proof.
  intros f. rewrite map_map. apply map_ext. intros r. unfold f.
  destruct (Store.matches sch k r) eqn:Hr.
  - rewrite matches_set_days, Hr. reflexivity.
  - rewrite Hr. reflexivity.
Qed.

(** X5. The update is idempotent: the same request served a second time
    gets the same answer, issues the same statement and leaves the table the
    first one made. An unchanged row still counts as found, so the repeat of
    a successful update is answered 200, not 404. *)
Theorem update_twice_is_update_once (sch : Store.schema) (id : string) (b : JS.value)
    (t : Store.table) :
  serve sch (PUT id b) (final (serve sch (PUT id b) t)) = serve sch (PUT id b) t.
Proof.
  destruct (invalid_days (JS.get b "NUMBER_OF_DAYS")) as [[|] | err] eqn:Hv.
  - rewrite !(serve_put_invalid _ _ _ _ Hv). reflexivity.
  - rewrite (serve_put_valid sch id b t Hv).
    destruct (filter (Store.matches sch (JS.String id)) (Store.rows t))
      as [| r found] eqn:Hf.
    + cbn [final]. rewrite (serve_put_valid sch id b t Hv), Hf. reflexivity.
    + destruct (Store.store_cell sch Store.NUMBER_OF_DAYS (JS.get b "NUMBER_OF_DAYS"))
        as [err | c] eqn:Hc; cbn [final].
      * rewrite (serve_put_valid sch id b t Hv), Hf, Hc. reflexivity.
      * rewrite (serve_put_valid sch id b _ Hv). cbn [Store.rows Store.auto_increment].
        rewrite filter_set_days, Hf, Hc. cbn [map].
        rewrite (set_days_twice sch (JS.String id) c). reflexivity.
  - rewrite !(serve_put_throws _ _ _ _ _ Hv). reflexivity.
Qed.

(** X8. Whatever its answer, an update leaves the counter, the number and
    the order of the rows, and of every row all but NUMBER_OF_DAYS; a row the
    identifier does not match is left whole. *)
Theorem update_never_adds_or_removes (sch : Store.schema) (id : string) (b : JS.value)
    (t : Store.table) :
  let t' := final (serve sch (PUT id b) t) in
  Store.auto_increment t' = Store.auto_increment t /\
  Forall2 (same_but_days (Store.matches sch (JS.String id))) (Store.rows t) (Store.rows t').
Proof.
  intros t'. subst t'.
  destruct (serve_put_final sch id b t) as [-> | (c & ->)].
  - split; [reflexivity |].
    induction (Store.rows t) as [| r l IH]; constructor; [| exact IH].
    unfold same_but_days. repeat split; reflexivity.
  - cbn [Store.rows Store.auto_increment]. split; [reflexivity | apply set_days_frame].
Qed.

(** ** What the create handler reads *)

Lemma lookup_other (name k : string) (v : JS.value) (props : list (string * JS.value)) :
  k <> name -> JS.lookup name ((k, v) :: props) = JS.lookup name props.
Proof.
  intros Hk. cbn [JS.lookup]. destruct (String.eqb k name) eqn:E; [| reflexivity].
  apply String.eqb_eq in E. contradiction.
Qed.

(** X7. A property of the body other than the five the create handler
    reads has no effect on the request: a client cannot choose USER_SCHD_ID
    or INSERT_ID, or set any other column, by sending it. *)
Theorem create_ignores_other_properties (sch : Store.schema) (k : string) (v : JS.value)
    (props : list (string * JS.value)) (t : Store.table) :
  ~ In k create_fields ->
  serve sch (POST (JS.Object ((k, v) :: props))) t = serve sch (POST (JS.Object props)) t.
Proof.
  intros Hk. unfold create_fields in Hk. cbn [In] in Hk.
  unfold serve, route, post_schedule. cbn [body JS.get].
  rewrite !lookup_other by (intros ->; tauto). reflexivity.
Qed.

Lemma create_ignores_other_properties_witness :
  let props := [("SCHEDULER_TYPE", JS.String "daily"); ("SCHEDULER_DETAILS", JS.String "d");
                ("VENDOR_ID", JS.String "V1"); ("INSERT_ID", JS.Number (JS.of_Z 7))] in
  serve Store.plain_schema
        (POST (JS.Object (("USER_SCHD_ID", JS.Number (JS.of_Z 99)) :: props))) Store.empty
  = serve Store.plain_schema (POST (JS.Object props)) Store.empty.
Proof.
  intros props. apply create_ignores_other_properties.
  unfold create_fields. cbn [In].
  intros [H | [H | [H | [H | [H | []]]]]]; discriminate H.
Defined.

(** ** Any history of requests *)

(** Whether a later request deletes a record does not turn on its days. *)
Lemma deleted_later_set_days (sch : Store.schema) (c : JS.value) (r : Store.row)
    (cs : list call) :
  existsb (deletes sch (Store.set_days c r)) cs = existsb (deletes sch r) cs.
Proof.
  induction cs as [| c0 cs IH]; [reflexivity |]. cbn [existsb]. rewrite IH.
  destruct c0; reflexivity.
Qed.

Lemma survivors_of_updated (sch : Store.schema) (k c : JS.value) (cs : list call)
    (l : list Store.row) :
  map Store.USER_SCHD_ID
      (filter (fun r => negb (existsb (deletes sch r) cs))
              (map (fun r => if Store.matches sch k r then Store.set_days c r else r) l))
  = map Store.USER_SCHD_ID (filter (fun r => negb (existsb (deletes sch r) cs)) l).
Proof.
  induction l as [| r l IH]; [reflexivity |]. cbn [map filter].
  assert (Hsame : existsb (deletes sch (if Store.matches sch k r then Store.set_days c r else r)) cs
                  = existsb (deletes sch r) cs)
    by (destruct (Store.matches sch k r); [apply deleted_later_set_days | reflexivity]).
  rewrite Hsame. destruct (negb (existsb (deletes sch r) cs)); cbn [map]; [| exact IH].
  f_equal; [| exact IH]. destruct (Store.matches sch k r); reflexivity.
Qed.

Lemma keys_after_any_history (sch : Store.schema) (cs : list call) :
  forall t,
    map Store.USER_SCHD_ID (Store.rows (serve_all sch cs t))
    = (map Store.USER_SCHD_ID
           (filter (fun r => negb (existsb (deletes sch r) cs)) (Store.rows t))
       ++ map Store.USER_SCHD_ID (live sch (Store.auto_increment t) cs))%list.
Proof.
  induction cs as [| c cs IH]; intros t.
  - cbn. rewrite app_nil_r. f_equal.
    induction (Store.rows t) as [| r l IHl]; cbn; congruence.
  - destruct c as [| b | id b | id]; cbn [serve_all].
    + rewrite IH, serve_get. reflexivity.
    + rewrite IH, serve_post_created. unfold live. cbn [creations existsb deletes orb].
      destruct (created sch b (Store.auto_increment t)) as [r |];
        cbn [Store.rows Store.auto_increment]; [| reflexivity].
      rewrite filter_app, map_app. cbn [filter map fst snd]. rewrite <- app_assoc. f_equal.
      destruct (negb (existsb (deletes sch r) cs)); reflexivity.
    + rewrite IH. unfold live. cbn [creations existsb deletes orb].
      destruct (serve_put_final sch id b t) as [-> | (c & ->)]; [reflexivity |].
      cbn [Store.rows Store.auto_increment]. rewrite survivors_of_updated. reflexivity.
    + rewrite IH, serve_delete. cbn [final Store.rows Store.auto_increment].
      unfold live. cbn [creations]. rewrite filter_after_delete. reflexivity.
Qed.

(** X9. After any history of requests on the empty table, updates and
    lists included, the keys of the rows in storage order are the keys of the
    records created and not deleted since, oldest first: only a create adds
    a record and only a delete removes one. *)
Theorem keys_listed_after_any_history (sch : Store.schema) (cs : list call) :
  map Store.USER_SCHD_ID (Store.rows (serve_all sch cs Store.empty))
  = map Store.USER_SCHD_ID (live sch 1 cs).
Proof. rewrite keys_after_any_history. reflexivity. Qed.
